(** * Embroidery container codec: [read.py] (exporter) and [write.py] (importer)

    A shallow embedding of the two scripts of [module/embroidery_tools].
    The scripts are straight-line Python over three standard-library
    services, which are modelled here as far as the scripts use them:

    - [struct] in native mode with the formats ["I"] and ["iii"], as CPython
      has it on the little-endian hosts the scripts run on (x86-64, AArch64):
      [int] is four bytes, least significant byte first, alignment four, so
      ["iii"] is twelve bytes without padding;
    - [json.dumps] and [json.loads] with their default options;
    - the [utf-8] codec in strict mode.

    Python integers are [Z], [bytes] are lists of [Byte.byte], [str] is a
    list of code points, a [float] is the text [json] writes for it,
    exceptions are the error side of [result].

    The limits of the interpreter are outside the model: memory, the
    recursion limit ([RecursionError] from [json] on deeply nested values
    and texts) and the digit limit of [int] ([ValueError] from [json.dumps]
    and [json.loads] on an integer of more than 4300 decimal digits).  A
    property that depends on them says so: the round trip bounds the
    integers of a thread, and the property of malformed metadata states
    that an exception is raised without naming it. *)

From Stdlib Require Import String Ascii ZArith List Lia Bool.
From coqutil Require Import Byte Word.LittleEndianList.
Import ListNotations.
Local Open Scope Z_scope.

(** ** Python values shared by both scripts *)

Module Py.

(** The exception classes the two scripts can raise. *)
Inductive exn : Type :=
| struct_error          (* struct.error *)
| JSONDecodeError       (* json.JSONDecodeError *)
| UnicodeDecodeError
| UnicodeEncodeError
| TypeError
| AttributeError.

Inductive result (A : Type) : Type :=
| Ok (a : A)
| Raise (e : exn).
Arguments Ok {A} a.
Arguments Raise {A} e.

Definition bind {A B} (m : result A) (k : A -> result B) : result B :=
  match m with
  | Ok a => k a
  | Raise e => Raise e
  end.

(** [list(map(f, xs))]: the first exception stops the traversal. *)
Fixpoint list_map {A B} (f : A -> result B) (xs : list A) : result (list B) :=
  match xs with
  | [] => Ok []
  | x :: xs' =>
      bind (f x) (fun y => bind (list_map f xs') (fun ys => Ok (y :: ys)))
  end.

(** [bytes] and an open binary file.  For a file opened for reading the
    state is the unread remainder; for a file opened for writing it is the
    content written so far. *)
Definition bytes := list byte.
Definition file := bytes.

Definition io (A : Type) : Type := file -> result A * file.

Definition ret {A} (a : A) : io A := fun f => (Ok a, f).
Definition lift {A} (r : result A) : io A := fun f => (r, f).
Definition iobind {A B} (m : io A) (k : A -> io B) : io B :=
  fun f =>
    match m f with
    | (Ok a, f') => k a f'
    | (Raise e, f') => (Raise e, f')
    end.

(** [f.read(n)]: up to [n] bytes, fewer at the end of the file.  The
    scripts never pass a negative [n]. *)
Definition read (n : Z) : io bytes :=
  fun f => (Ok (firstn (Z.to_nat n) f), skipn (Z.to_nat n) f).

(** [f.write(b)] *)
Definition write (b : bytes) : io unit :=
  fun f => (Ok tt, f ++ b).

End Py.

Import Py.

Declare Scope io_scope.
Delimit Scope io_scope with io.
Notation "x <- m ;; k" := (iobind m (fun x => k))
  (at level 61, m at next level, right associativity) : io_scope.
Notation "m ;;; k" := (iobind m (fun _ => k))
  (at level 61, right associativity) : io_scope.

(** ** [struct]: native mode, formats ["I"] and ["iii"] *)

Module Struct.

Definition in_u32 (n : Z) : bool := (0 <=? n) && (n <? 2 ^ 32).
Definition in_i32 (n : Z) : bool := (- 2 ^ 31 <=? n) && (n <? 2 ^ 31).

(** Two's complement reading of a 32-bit pattern. *)
Definition to_signed32 (u : Z) : Z := if u <? 2 ^ 31 then u else u - 2 ^ 32.

(** [struct.pack("I", n)] *)
Definition pack_I (n : Z) : result bytes :=
  if in_u32 n then Ok (le_split 4 n) else Raise struct_error.

Definition pack_i (n : Z) : result bytes :=
  if in_i32 n then Ok (le_split 4 n) else Raise struct_error.

(** [struct.pack("iii", x, y, c)] *)
Definition pack_iii (row : Z * Z * Z) : result bytes :=
  let '(x, y, c) := row in
  bind (pack_i x) (fun bx =>
  bind (pack_i y) (fun by_ =>
  bind (pack_i c) (fun bc => Ok (bx ++ by_ ++ bc)))).

(** [struct.unpack("I", b)[0]]: the buffer must hold exactly four bytes. *)
Definition unpack_I (b : bytes) : result Z :=
  if (length b =? 4)%nat then Ok (le_combine b) else Raise struct_error.

Definition unpack_i (b : bytes) : Z := to_signed32 (le_combine b).

(** [struct.unpack("iii", b)]: exactly twelve bytes. *)
Definition unpack_iii (b : bytes) : result (Z * Z * Z) :=
  if (length b =? 12)%nat then
    Ok (unpack_i (firstn 4 b),
        unpack_i (firstn 4 (skipn 4 b)),
        unpack_i (firstn 4 (skipn 8 b)))
  else Raise struct_error.

End Struct.

(** ** Python [str] and the values [json] exchanges *)

(** A [str] is a sequence of code points. *)
Definition str := list Z.

(** A literal of the source, given in ASCII. *)
Definition lit (s : string) : str :=
  map (fun a => Z.of_N (N_of_ascii a)) (list_ascii_of_string s).

Fixpoint str_eqb (a b : str) : bool :=
  match a, b with
  | [], [] => true
  | x :: a', y :: b' => (x =? y) && str_eqb a' b'
  | _, _ => false
  end.

(** The Python objects [json.loads] builds and [json.dumps] accepts here:
    [None], [bool], [int], [float], [str], [list] and [dict] with [str] keys
    (insertion ordered).  A [float] is kept as the text of its literal,
    which stands for [float.__repr__] in [dumps]; floating-point
    arithmetic is not modelled, and the properties below that depend on
    the content of the metadata are stated for values without floats. *)
Unset Elimination Schemes.
Inductive json : Type :=
| JNull
| JBool (b : bool)
| JInt (n : Z)
| JFloat (text : str)
| JStr (s : str)
| JList (l : list json)
| JDict (d : list (str * json)).
Set Elimination Schemes.

(** *** [dict] operations *)

Definition pydict := list (str * json).

(** [d.get(k)] as a lookup; [None] when the key is missing. *)
Fixpoint dict_lookup (k : str) (d : pydict) : option json :=
  match d with
  | [] => None
  | (k', v) :: d' => if str_eqb k k' then Some v else dict_lookup k d'
  end.

(** [d.get(k, None)] *)
Definition dict_get (k : str) (d : pydict) : json :=
  match dict_lookup k d with
  | Some v => v
  | None => JNull
  end.

(** [d[k] = v]: an existing key keeps its position. *)
Fixpoint dict_set (k : str) (v : json) (d : pydict) : pydict :=
  match d with
  | [] => [(k, v)]
  | (k', v') :: d' =>
      if str_eqb k k' then (k', v) :: d' else (k', v') :: dict_set k v d'
  end.

(** [del d[k]] (no effect when the key is missing). *)
Fixpoint dict_del (k : str) (d : pydict) : pydict :=
  match d with
  | [] => []
  | (k', v') :: d' =>
      if str_eqb k k' then dict_del k d' else (k', v') :: dict_del k d'
  end.

(** [dict(pairs)] *)
Definition dict_of_pairs (pairs : list (str * json)) : pydict :=
  fold_left (fun d kv => dict_set (fst kv) (snd kv) d) pairs [].

(** ** [json.dumps] with the default options

    [ensure_ascii=True], separators [", "] and [": "], no indentation. *)

Module JsonEncoder.

(** One digit of [format(n, "04x")]. *)
Definition hex_digit (d : Z) : Z := if d <? 10 then 48 + d else 87 + d.

(** ['\\u{0:04x}'.format(n)] *)
Definition u_escape (n : Z) : str :=
  [92; 117; hex_digit (n / 4096 mod 16); hex_digit (n / 256 mod 16);
   hex_digit (n / 16 mod 16); hex_digit (n mod 16)].

(** The replacement of [py_encode_basestring_ascii] for one character:
    printable ASCII other than the quote and the backslash stays, the
    seven short escapes, [\uXXXX] for the rest of the BMP, a surrogate
    pair above it. *)
Definition escape_char (c : Z) : str :=
  if (32 <=? c) && (c <=? 126) && negb (c =? 34) && negb (c =? 92) then [c]
  else if c =? 92 then [92; 92]
  else if c =? 34 then [92; 34]
  else if c =? 8 then [92; 98]
  else if c =? 12 then [92; 102]
  else if c =? 10 then [92; 110]
  else if c =? 13 then [92; 114]
  else if c =? 9 then [92; 116]
  else if c <? 65536 then u_escape c
  else
    let n := c - 65536 in
    u_escape (Z.lor 55296 (Z.land (Z.shiftr n 10) 1023))
      ++ u_escape (Z.lor 56320 (Z.land n 1023)).

Definition encode_basestring_ascii (s : str) : str :=
  [34] ++ flat_map escape_char s ++ [34].

(** [int.__repr__]: decimal digits, most significant first. *)
Fixpoint digits (fuel : nat) (n : Z) : str :=
  match fuel with
  | O => []
  | S fuel' =>
      if n <? 10 then [48 + n]
      else digits fuel' (n / 10) ++ [48 + n mod 10]
  end.

Definition nat_repr (n : Z) : str := digits (S (Z.to_nat (Z.log2 n))) n.

Definition int_repr (n : Z) : str :=
  if n <? 0 then 45 :: nat_repr (- n) else nat_repr n.

(** [sep.join(parts)] *)
Fixpoint join (sep : str) (parts : list str) : str :=
  match parts with
  | [] => []
  | [p] => p
  | p :: ps => p ++ sep ++ join sep ps
  end.

Fixpoint dumps (v : json) : str :=
  match v with
  | JNull => lit "null"
  | JBool true => lit "true"
  | JBool false => lit "false"
  | JInt n => int_repr n
  | JFloat text => text
  | JStr s => encode_basestring_ascii s
  | JList l => [91] ++ join (lit ", ") (map dumps l) ++ [93]
  | JDict d =>
      [123]
        ++ join (lit ", ")
             (map (fun kv =>
                     encode_basestring_ascii (fst kv) ++ lit ": " ++ dumps (snd kv))
                  d)
        ++ [125]
  end.

End JsonEncoder.

(** ** [json.loads] with the default options

    The scanner of [json.decoder] and [json.scanner]: [scanstring],
    the number pattern, [JSONArray], [JSONObject] and [scan_once].  The
    recursion of [scan_once] through arrays and objects is bounded by a
    fuel argument; [loads] supplies more fuel than the text has
    characters, which is always enough ([scan_once_fuel] and [loads_fuel] below).
    Every text the scanner rejects is a [JSONDecodeError]; the two
    exceptions of the interpreter's limits, [ValueError] and
    [RecursionError], do not occur here. *)

Module JsonDecoder.

Inductive presult (A : Type) : Type :=
| POk (a : A) (rest : str)
| PErr      (* the scanner gives up: [JSONDecodeError] for the caller *)
| PFuel.    (* the recursion bound is reached *)
Arguments POk {A} a rest.
Arguments PErr {A}.
Arguments PFuel {A}.

(** [WHITESPACE = re.compile(r'[ \t\n\r]*')] *)
Definition is_ws (c : Z) : bool :=
  (c =? 32) || (c =? 9) || (c =? 10) || (c =? 13).

Fixpoint skip_ws (s : str) : str :=
  match s with
  | c :: r => if is_ws c then skip_ws r else s
  | [] => []
  end.

(** [s[idx:idx+len(p)] == p], returning what follows. *)
Fixpoint strip_prefix (p s : str) : option str :=
  match p, s with
  | [], _ => Some s
  | x :: p', y :: s' => if x =? y then strip_prefix p' s' else None
  | _ :: _, [] => None
  end.

(** *** Strings *)

Definition hex_value (c : Z) : option Z :=
  if (48 <=? c) && (c <=? 57) then Some (c - 48)
  else if (97 <=? c) && (c <=? 102) then Some (c - 87)
  else if (65 <=? c) && (c <=? 70) then Some (c - 55)
  else None.

Definition decode_uXXXX (a b c d : Z) : option Z :=
  match hex_value a, hex_value b, hex_value c, hex_value d with
  | Some x, Some y, Some z, Some w => Some (((x * 16 + y) * 16 + z) * 16 + w)
  | _, _, _, _ => None
  end.

(** The [BACKSLASH] table. *)
Definition backslash (e : Z) : option Z :=
  if e =? 34 then Some 34
  else if e =? 92 then Some 92
  else if e =? 47 then Some 47
  else if e =? 98 then Some 8
  else if e =? 102 then Some 12
  else if e =? 110 then Some 10
  else if e =? 114 then Some 13
  else if e =? 116 then Some 9
  else None.

Definition is_high_surrogate (c : Z) : bool := (55296 <=? c) && (c <=? 56319).
Definition is_low_surrogate (c : Z) : bool := (56320 <=? c) && (c <=? 57343).
Definition join_surrogates (hi lo : Z) : Z :=
  65536 + Z.lor (Z.shiftl (hi - 55296) 10) (lo - 56320).

Definition push (c : Z) (r : option (str * str)) : option (str * str) :=
  match r with
  | Some (x, rest) => Some (c :: x, rest)
  | None => None
  end.

(** [scanstring(s, end, strict=True)] of the C scanner, entered after the
    opening quote: the content and what follows the closing quote.  A
    [\uXXXX] escape of a high surrogate joins with a following escape of a
    low surrogate. *)
Fixpoint scanstring (s : str) : option (str * str) :=
  match s with
  | [] => None
  | c :: r =>
      if c =? 34 then Some ([], r)
      else if c =? 92 then
        match r with
        | [] => None
        | e :: r1 =>
            if e =? 117 then
              match r1 with
              | a :: b :: c1 :: d :: r2 =>
                  match decode_uXXXX a b c1 d with
                  | None => None
                  | Some uni =>
                      if is_high_surrogate uni then
                        match r2 with
                        | bs :: u :: a2 :: b2 :: c2 :: d2 :: r3 =>
                            if (bs =? 92) && (u =? 117) then
                              match decode_uXXXX a2 b2 c2 d2 with
                              | None => None
                              | Some uni2 =>
                                  if is_low_surrogate uni2
                                  then push (join_surrogates uni uni2) (scanstring r3)
                                  else push uni (scanstring r2)
                              end
                            else push uni (scanstring r2)
                        | _ => push uni (scanstring r2)
                        end
                      else push uni (scanstring r2)
                  end
              | _ => None
              end
            else
              match backslash e with
              | Some ch => push ch (scanstring r1)
              | None => None
              end
        end
      else if c <? 32 then None
      else push c (scanstring r)
  end.

(** *** Numbers

    [NUMBER_RE]: an optional minus sign, then a single zero or a nonzero
    digit followed by digits (the integer part); an optional fraction, a
    dot and at least one digit; an optional exponent, [e] or [E], an
    optional sign and at least one digit.  All digits are ASCII. *)

Definition is_digit (c : Z) : bool := (48 <=? c) && (c <=? 57).

Fixpoint span_digits (s : str) : str * str :=
  match s with
  | c :: r =>
      if is_digit c then let (ds, r') := span_digits r in (c :: ds, r')
      else ([], s)
  | [] => ([], [])
  end.

Definition match_sign (s : str) : str * str :=
  match s with
  | c :: r => if c =? 45 then ([45], r) else ([], s)
  | [] => ([], s)
  end.

(** A single zero, or a nonzero digit and the digits after it. *)
Definition match_digits (sign s : str) : option (str * str) :=
  match s with
  | c :: r =>
      if c =? 48 then Some (sign ++ [48], r)
      else if is_digit c then
        let (ds, r') := span_digits r in Some (sign ++ c :: ds, r')
      else None
  | [] => None
  end.

Definition match_integer (s : str) : option (str * str) :=
  let (sign, s1) := match_sign s in match_digits sign s1.

Definition match_frac (s : str) : str * str :=
  match s with
  | p :: d :: r =>
      if (p =? 46) && is_digit d then
        let (ds, r') := span_digits r in (p :: d :: ds, r')
      else ([], s)
  | _ => ([], s)
  end.

Definition match_exp (s : str) : str * str :=
  match s with
  | e :: r =>
      if (e =? 101) || (e =? 69) then
        let (sg, r1) :=
          match r with
          | c :: r' => if (c =? 43) || (c =? 45) then ([c], r') else ([], r)
          | [] => ([], r)
          end in
        match span_digits r1 with
        | ([], _) => ([], s)
        | (ds, r2) => (e :: sg ++ ds, r2)
        end
      else ([], s)
  | [] => ([], s)
  end.

(** [int(text)] on an optional minus sign and ASCII digits. *)
Definition digits_value (ds : str) : Z :=
  fold_left (fun a d => 10 * a + (d - 48)) ds 0.

Definition parse_int (text : str) : Z :=
  match text with
  | c :: ds => if c =? 45 then - digits_value ds else digits_value text
  | [] => 0
  end.

Definition match_number (s : str) : option (json * str) :=
  match match_integer s with
  | None => None
  | Some (integer, s1) =>
      let (frac, s2) := match_frac s1 in
      let (exp, s3) := match_exp s2 in
      match frac, exp with
      | [], [] => Some (JInt (parse_int integer), s3)
      | _, _ => Some (JFloat (integer ++ frac ++ exp), s3)
      end
  end.

(** The literals [null], [true], [false], [NaN], [Infinity], [-Infinity]. *)
Definition constants : list (str * json) :=
  [ (lit "null", JNull); (lit "true", JBool true); (lit "false", JBool false);
    (lit "NaN", JFloat (lit "NaN")); (lit "Infinity", JFloat (lit "Infinity"));
    (lit "-Infinity", JFloat (lit "-Infinity")) ].

Fixpoint match_constant (cs : list (str * json)) (s : str) : option (json * str) :=
  match cs with
  | [] => None
  | (name, v) :: cs' =>
      match strip_prefix name s with
      | Some rest => Some (v, rest)
      | None => match_constant cs' s
      end
  end.

(** *** Arrays and objects *)

(** The [while True] loop of [JSONArray]. *)
Fixpoint array_loop (scan_once : str -> presult json) (fuel : nat)
    (s : str) (values : list json) : presult json :=
  match fuel with
  | O => PFuel
  | S fuel' =>
      match scan_once s with
      | POk value s1 =>
          let values' := values ++ [value] in
          match skip_ws s1 with
          | c :: s2 =>
              if c =? 93 then POk (JList values') s2
              else if c =? 44 then array_loop scan_once fuel' (skip_ws s2) values'
              else PErr
          | [] => PErr
          end
      | PErr => PErr
      | PFuel => PFuel
      end
  end.

(** [JSONArray((s, end), scan_once)], entered after the bracket. *)
Definition JSONArray (scan_once : str -> presult json) (fuel : nat) (s : str)
    : presult json :=
  match skip_ws s with
  | c :: r =>
      if c =? 93 then POk (JList []) r
      else array_loop scan_once fuel (c :: r) []
  | [] => PErr
  end.

(** The [while True] loop of [JSONObject], entered after the opening quote
    of a key. *)
Fixpoint object_loop (scan_once : str -> presult json) (fuel : nat)
    (s : str) (pairs : list (str * json)) : presult json :=
  match fuel with
  | O => PFuel
  | S fuel' =>
      match scanstring s with
      | None => PErr
      | Some (key, s1) =>
          match skip_ws s1 with
          | c :: s2 =>
              if c =? 58 then
                match scan_once (skip_ws s2) with
                | POk value s3 =>
                    let pairs' := pairs ++ [(key, value)] in
                    match skip_ws s3 with
                    | c' :: s4 =>
                        if c' =? 125 then POk (JDict (dict_of_pairs pairs')) s4
                        else if c' =? 44 then
                          match skip_ws s4 with
                          | q :: s5 =>
                              if q =? 34
                              then object_loop scan_once fuel' s5 pairs'
                              else PErr
                          | [] => PErr
                          end
                        else PErr
                    | [] => PErr
                    end
                | PErr => PErr
                | PFuel => PFuel
                end
              else PErr
          | [] => PErr
          end
      end
  end.

(** [JSONObject((s, end), strict, scan_once, ...)], entered after the brace. *)
Definition JSONObject (scan_once : str -> presult json) (fuel : nat) (s : str)
    : presult json :=
  match skip_ws s with
  | c :: r =>
      if c =? 125 then POk (JDict []) r
      else if c =? 34 then object_loop scan_once fuel r []
      else PErr
  | [] => PErr
  end.

(** [scan_once(string, idx)] *)
Fixpoint scan_once (fuel : nat) (s : str) : presult json :=
  match fuel with
  | O => PFuel
  | S fuel' =>
      match s with
      | [] => PErr
      | c :: r =>
          if c =? 34 then
            match scanstring r with
            | Some (x, rest) => POk (JStr x) rest
            | None => PErr
            end
          else if c =? 123 then JSONObject (scan_once fuel') fuel' r
          else if c =? 91 then JSONArray (scan_once fuel') fuel' r
          else
            match match_number s with
            | Some (v, rest) => POk v rest
            | None =>
                match match_constant constants s with
                | Some (v, rest) => POk v rest
                | None => PErr
                end
            end
      end
  end.

(** [json.loads(s)] for a [str]: no byte order mark, one value between
    optional whitespace, nothing after it. *)
Definition loads (s : str) : result json :=
  match strip_prefix [65279] s with
  | Some _ => Raise JSONDecodeError
  | None =>
      match scan_once (S (length s)) (skip_ws s) with
      | POk v rest =>
          match skip_ws rest with
          | [] => Ok v
          | _ :: _ => Raise JSONDecodeError
          end
      | PErr | PFuel => Raise JSONDecodeError
      end
  end.

End JsonDecoder.

(** ** The [utf-8] codec, strict error handling *)

Module Utf8.

Definition is_surrogate (c : Z) : bool := (55296 <=? c) && (c <=? 57343).

Definition encode_char (c : Z) : result bytes :=
  if c <? 128 then Ok [byte.of_Z c]
  else if c <? 2048 then
    Ok [byte.of_Z (192 + c / 64); byte.of_Z (128 + c mod 64)]
  else if c <? 65536 then
    if is_surrogate c then Raise UnicodeEncodeError
    else Ok [byte.of_Z (224 + c / 4096); byte.of_Z (128 + c / 64 mod 64);
             byte.of_Z (128 + c mod 64)]
  else
    Ok [byte.of_Z (240 + c / 262144); byte.of_Z (128 + c / 4096 mod 64);
        byte.of_Z (128 + c / 64 mod 64); byte.of_Z (128 + c mod 64)].

(** [s.encode("utf-8")] *)
Definition encode (s : str) : result bytes :=
  bind (list_map encode_char s) (fun chunks => Ok (concat chunks)).

Definition in_range (lo hi x : Z) : bool := (lo <=? x) && (x <=? hi).
Definition continuation (x : Z) : bool := in_range 128 191 x.

(** Bounds of the second byte of a three- and a four-byte sequence: they
    exclude overlong forms, surrogates and code points above U+10FFFF. *)
Definition second3 (x0 x1 : Z) : bool :=
  if x0 =? 224 then in_range 160 191 x1
  else if x0 =? 237 then in_range 128 159 x1
  else continuation x1.

Definition second4 (x0 x1 : Z) : bool :=
  if x0 =? 240 then in_range 144 191 x1
  else if x0 =? 244 then in_range 128 143 x1
  else continuation x1.

Definition emit (c : Z) (r : result str) : result str :=
  bind r (fun s => Ok (c :: s)).

(** [b.decode("utf-8")] *)
Fixpoint decode (b : bytes) : result str :=
  match b with
  | [] => Ok []
  | b0 :: r0 =>
      let x0 := byte.unsigned b0 in
      if x0 <? 128 then emit x0 (decode r0)
      else if in_range 194 223 x0 then
        match r0 with
        | b1 :: r1 =>
            let x1 := byte.unsigned b1 in
            if continuation x1
            then emit ((x0 - 192) * 64 + (x1 - 128)) (decode r1)
            else Raise UnicodeDecodeError
        | _ => Raise UnicodeDecodeError
        end
      else if in_range 224 239 x0 then
        match r0 with
        | b1 :: b2 :: r2 =>
            let x1 := byte.unsigned b1 in
            let x2 := byte.unsigned b2 in
            if second3 x0 x1 && continuation x2
            then emit (((x0 - 224) * 64 + (x1 - 128)) * 64 + (x2 - 128)) (decode r2)
            else Raise UnicodeDecodeError
        | _ => Raise UnicodeDecodeError
        end
      else if in_range 240 244 x0 then
        match r0 with
        | b1 :: b2 :: b3 :: r3 =>
            let x1 := byte.unsigned b1 in
            let x2 := byte.unsigned b2 in
            let x3 := byte.unsigned b3 in
            if second4 x0 x1 && continuation x2 && continuation x3
            then emit ((((x0 - 240) * 64 + (x1 - 128)) * 64 + (x2 - 128)) * 64
                       + (x3 - 128)) (decode r3)
            else Raise UnicodeDecodeError
        | _ => Raise UnicodeDecodeError
        end
      else Raise UnicodeDecodeError
  end.

End Utf8.

(** ** What the scripts exchange with [pyembroidery]

    [pyembroidery.read] hands the exporter a pattern, and the importer hands
    one to [pyembroidery.write]; the library itself is outside the
    repository.  Of a pattern the scripts touch the stitch list and the
    thread list, of a thread its seven attributes. *)

Definition stitch : Type := Z * Z * Z.

Record EmbThread : Type := mkThread {
  color : json;
  description : json;
  catalog_number : json;
  details : json;
  brand : json;
  chart : json;
  weight : json
}.

Record EmbPattern : Type := mkPattern {
  stitches : list stitch;
  threadlist : list EmbThread
}.

(** ** [read.py]: the exporter *)

Module ReadPy.
Import Struct JsonEncoder.
Local Open Scope io_scope.

Definition thread_to_dict (thread : EmbThread) : pydict :=
  [ (lit "hex_color", color thread);
    (lit "description", description thread);
    (lit "catalog_number", catalog_number thread);
    (lit "details", details thread);
    (lit "brand", brand thread);
    (lit "chart", chart thread);
    (lit "weight", weight thread) ].

(** [for row in stitches: f.write(struct.pack("iii", *row))] *)
Fixpoint write_rows (rows : list stitch) : io unit :=
  match rows with
  | [] => ret tt
  | row :: rows' =>
      b <- lift (pack_iii row) ;; write b ;;; write_rows rows'
  end.

(** The text and the bytes of the metadata, computed before the output
    file is opened. *)
Definition threads_json (threads : list EmbThread) : str :=
  dumps (JList (map (fun t => JDict (thread_to_dict t)) threads)).

(** The body of [with open(output, "wb") as f]. *)
Definition write_container (stitches : list stitch) (threads_bytes : bytes)
    : io unit :=
  b <- lift (pack_I (Z.of_nat (length stitches))) ;; write b ;;;
  write_rows stitches ;;;
  b <- lift (pack_I (Z.of_nat (length threads_bytes))) ;; write b ;;;
  write threads_bytes.

(** [main]: the pattern is what [pyembroidery.read(input)] returned; the
    result is the outcome and the content of the output file (empty when
    the file is never opened). *)
Definition main (pattern : EmbPattern) : result unit * file :=
  match Utf8.encode (threads_json (threadlist pattern)) with
  | Raise e => (Raise e, [])
  | Ok threads_bytes => write_container (stitches pattern) threads_bytes []
  end.

End ReadPy.

(** ** [write.py]: the importer *)

Module WritePy.
Import Struct JsonDecoder.
Local Open Scope io_scope.

(** [thread_dict.get] exists on a [dict] only. *)
Definition dict_to_thread (thread_dict : json) : result EmbThread :=
  match thread_dict with
  | JDict d =>
      Ok {| color := dict_get (lit "hex_color") d;
            description := dict_get (lit "description") d;
            catalog_number := dict_get (lit "catalog_number") d;
            details := dict_get (lit "details") d;
            brand := dict_get (lit "brand") d;
            chart := dict_get (lit "chart") d;
            weight := dict_get (lit "weight") d |}
  | _ => Raise AttributeError
  end.

(** [for _ in range(num_rows): stitches.append(struct.unpack("iii", f.read(12)))] *)
Fixpoint read_rows (num_rows : nat) : io (list stitch) :=
  match num_rows with
  | O => ret []
  | S n =>
      b <- read 12 ;;
      row <- lift (unpack_iii b) ;;
      rows <- read_rows n ;;
      ret (row :: rows)
  end.

(** What [map] iterates over: the items of a [list], the keys of a [dict],
    the characters of a [str]; other objects are not iterable. *)
Definition iter (v : json) : result (list json) :=
  match v with
  | JList l => Ok l
  | JDict d => Ok (map (fun kv => JStr (fst kv)) d)
  | JStr s => Ok (map (fun c => JStr [c]) s)
  | JNull | JBool _ | JInt _ | JFloat _ => Raise TypeError
  end.

(** The body of [with open(input, "rb") as f]. *)
Definition read_container : io (list stitch * json) :=
  b <- read 4 ;;
  num_rows <- lift (unpack_I b) ;;
  stitches <- read_rows (Z.to_nat num_rows) ;;
  b <- read 4 ;;
  threads_size <- lift (unpack_I b) ;;
  threads_bytes <- read threads_size ;;
  str <- lift (Utf8.decode threads_bytes) ;;
  thread_dicts <- lift (loads str) ;;
  ret (stitches, thread_dicts).

(** [main]: the input is the content of the container file; the result is
    the pattern handed to [pyembroidery.write]. *)
Definition main (input : file) : result EmbPattern :=
  bind (fst (read_container input)) (fun '(stitches, thread_dicts) =>
  bind (iter thread_dicts) (fun items =>
  bind (list_map dict_to_thread items) (fun threads =>
  Ok {| stitches := stitches; threadlist := threads |}))).

End WritePy.

(** ** The container codec of the specification *)

(** [Encode]: the bytes [read.py] leaves in the output file when it
    finishes. *)
Definition Encode (stitches : list stitch) (threads : list EmbThread) : result bytes :=
  match ReadPy.main {| stitches := stitches; threadlist := threads |} with
  | (Ok _, out) => Ok out
  | (Raise e, _) => Raise e
  end.

(** [Decode]: the stitches and threads [write.py] reads from the bytes. *)
Definition Decode (b : bytes) : result (list stitch * list EmbThread) :=
  bind (WritePy.main b) (fun p => Ok (stitches p, threadlist p)).

(** * The vocabulary of the properties *)

Import Struct JsonEncoder JsonDecoder ReadPy WritePy.
Local Open Scope io_scope.

(** ** The framing *)

(** The rows [read_rows] returns when the file is long enough. *)
Fixpoint rows_of (n : nat) (f : bytes) : list stitch :=
  match n with
  | O => []
  | S k =>
      (unpack_i (firstn 4 f), unpack_i (firstn 4 (skipn 4 f)),
       unpack_i (firstn 4 (skipn 8 f))) :: rows_of k (skipn 12 f)
  end.

(** The first five reads of [read_container]: count, rows, size, blob. *)
Definition read_frame : io (list stitch * bytes) :=
  b <- read 4 ;;
  num_rows <- lift (unpack_I b) ;;
  stitches <- read_rows (Z.to_nat num_rows) ;;
  b <- read 4 ;;
  threads_size <- lift (unpack_I b) ;;
  threads_bytes <- read threads_size ;;
  ret (stitches, threads_bytes).

(** The count the first four bytes declare, and the size the four bytes
    after the rows declare. *)
Definition declared_count (b : bytes) : Z := le_combine (firstn 4 b).

Definition declared_size (b : bytes) : Z :=
  le_combine (firstn 4 (skipn (4 + 12 * Z.to_nat (declared_count b)) b)).

(** The length of a container with these declarations. *)
Definition container_size (b : bytes) : Z :=
  8 + 12 * declared_count b + declared_size b.

(** Four bytes, least significant first. *)
Definition le32 (n : Z) : bytes :=
  [byte.of_Z n; byte.of_Z (n / 2 ^ 8); byte.of_Z (n / 2 ^ 16); byte.of_Z (n / 2 ^ 24)].

(** A stitch whose three components fit a signed 32-bit integer. *)
Definition stitch_ok (r : stitch) : bool :=
  let '(x, y, c) := r in in_i32 x && in_i32 y && in_i32 c.

(** The twelve bytes of a stitch. *)
Definition row_bytes (r : stitch) : bytes :=
  let '(x, y, c) := r in le32 x ++ le32 y ++ le32 c.

(** The container [write_container] leaves when nothing is out of range. *)
Definition container (stitches : list stitch) (threads_bytes : bytes) : bytes :=
  le32 (Z.of_nat (length stitches))
    ++ flat_map row_bytes stitches
    ++ le32 (Z.of_nat (length threads_bytes))
    ++ threads_bytes.

(** What [main] does with the stitches and the blob once they are read. *)
Definition finish (stitches : list stitch) (blob : bytes)
    : result (list stitch * list EmbThread) :=
  bind (Utf8.decode blob) (fun str =>
  bind (loads str) (fun thread_dicts =>
  bind (iter thread_dicts) (fun items =>
  bind (list_map dict_to_thread items) (fun threads =>
  Ok (stitches, threads))))).

(** ** The values [json] reproduces *)

(** A Unicode scalar value: a code point that is not a surrogate. *)
Definition scalar (c : Z) : bool :=
  (0 <=? c) && (c <=? 1114111) && negb (Utf8.is_surrogate c).

(** What may follow a value inside [dumps] output: nothing, a comma, a
    closing bracket or a closing brace. *)
Definition delimited (rest : str) : bool :=
  match rest with
  | [] => true
  | c :: _ => (c =? 44) || (c =? 93) || (c =? 125)
  end.

(** Induction over [json] with the hypotheses for the items of a list and
    the values of a dict. *)
Fixpoint json_ind' (P : json -> Prop)
    (HNull : P JNull) (HBool : forall b, P (JBool b)) (HInt : forall n, P (JInt n))
    (HFloat : forall t, P (JFloat t)) (HStr : forall s, P (JStr s))
    (HList : forall l, Forall P l -> P (JList l))
    (HDict : forall d, Forall (fun kv => P (snd kv)) d -> P (JDict d))
    (v : json) {struct v} : P v :=
  let rec := json_ind' P HNull HBool HInt HFloat HStr HList HDict in
  match v with
  | JNull => HNull
  | JBool b => HBool b
  | JInt n => HInt n
  | JFloat t => HFloat t
  | JStr s => HStr s
  | JList l =>
      HList l ((fix items (l : list json) : Forall P l :=
                  match l with
                  | [] => Forall_nil P
                  | x :: l' => Forall_cons x (rec x) (items l')
                  end) l)
  | JDict d =>
      HDict d ((fix items (d : list (str * json)) : Forall (fun kv => P (snd kv)) d :=
                  match d with
                  | [] => Forall_nil _
                  | kv :: d' => Forall_cons kv (rec (snd kv)) (items d')
                  end) d)
  end.

(** Keys that are pairwise different. *)
Fixpoint distinct (ks : list str) : bool :=
  match ks with
  | [] => true
  | k :: ks' => negb (existsb (str_eqb k) ks') && distinct ks'
  end.

(** The values [json] reproduces exactly: no [float], every [str] a
    sequence of Unicode scalar values, the keys of a [dict] distinct. *)
Fixpoint plain (v : json) : bool :=
  match v with
  | JNull | JBool _ | JInt _ => true
  | JFloat _ => false
  | JStr s => forallb scalar s
  | JList l => forallb plain l
  | JDict d =>
      distinct (map fst d)
      && forallb (fun kv => forallb scalar (fst kv) && plain (snd kv)) d
  end.

(** A code point of a Python [str]. *)
Definition is_codepoint (c : Z) : bool := (0 <=? c) && (c <=? 1114111).

(** No high surrogate stands directly in front of a low surrogate.  [dumps]
    writes such a pair as two [\uXXXX] escapes, the text it also writes for
    the one character above the BMP the pair encodes, and [loads] reads the
    two escapes as that character. *)
Fixpoint pair_free (s : str) : bool :=
  match s with
  | c :: r =>
      match r with
      | c' :: _ => negb (is_high_surrogate c && is_low_surrogate c')
      | [] => true
      end && pair_free r
  | [] => true
  end.

(** The strings [json] reproduces: code points, surrogates among them, but
    no surrogate pair. *)
Definition stable_str (s : str) : bool := forallb is_codepoint s && pair_free s.

(** The text [dumps] writes for a [float] other than NaN: a number with a
    fraction or an exponent, [Infinity] or [-Infinity]. *)
Definition float_text (t : str) : bool :=
  match match_number t with
  | Some (JFloat t', []) => str_eqb t' t
  | _ => str_eqb t (lit "Infinity") || str_eqb t (lit "-Infinity")
  end.

(** The values this model of [json] reproduces: as [plain], with the floats
    other than NaN and with unpaired surrogates in strings. *)
Fixpoint stable (v : json) : bool :=
  match v with
  | JNull | JBool _ | JInt _ => true
  | JFloat t => float_text t
  | JStr s => stable_str s
  | JList l => forallb stable l
  | JDict d =>
      distinct (map fst d)
      && forallb (fun kv => stable_str (fst kv) && stable (snd kv)) d
  end.

(** The first character of a value in [dumps] output. *)
Definition value_start (c : Z) : bool :=
  (c =? 34) || (c =? 123) || (c =? 91) || (c =? 110) || (c =? 116)
  || (c =? 102) || (c =? 45) || (c =? 73) || is_digit c.

(** [scan] reads back the text of [v] in front of a delimiter. *)
Definition reads (scan : str -> presult json) (v : json) : Prop :=
  stable v = true
  /\ forall rest, delimited rest = true -> scan (dumps v ++ rest) = POk v rest.

(** One entry of a dict in [dumps] output. *)
Definition item (kv : str * json) : str :=
  encode_basestring_ascii (fst kv) ++ lit ": " ++ dumps (snd kv).

Definition reads_item (scan : str -> presult json) (kv : str * json) : Prop :=
  stable_str (fst kv) = true /\ reads scan (snd kv).

(** A character the [utf-8] codec writes as one byte. *)
Definition is_ascii (c : Z) : bool := (0 <=? c) && (c <? 128).

(** A scanner that, on a text shorter than [n], never reaches the
    recursion bound and consumes at least one character when it
    succeeds. *)
Definition productive (n : nat) (scan : str -> presult json) : Prop :=
  forall s, (length s < n)%nat ->
    match scan s with
    | POk _ r => (length r < length s)%nat
    | PErr => True
    | PFuel => False
    end.

(** ** Threads *)

(** The seven keys of a thread object, in the order [thread_to_dict] writes
    them. *)
Definition thread_keys : list str :=
  [lit "hex_color"; lit "description"; lit "catalog_number"; lit "details";
   lit "brand"; lit "chart"; lit "weight"].

(** The seven attributes of a thread, in the same order. *)
Definition thread_values (t : EmbThread) : list json :=
  [color t; description t; catalog_number t; details t; brand t; chart t; weight t].

(** A thread whose seven attributes are [plain]. *)
Definition thread_plain (t : EmbThread) : bool := forallb plain (thread_values t).

(** [sys.int_max_str_digits], the default: CPython converts an [int] to or
    from decimal text of at most this many digits and raises [ValueError]
    beyond it, in [json.dumps] and in [json.loads] as everywhere else.  The
    model of [json] has no such limit; where a property needs the limit it
    is a hypothesis. *)
Definition int_max_str_digits : Z := 4300.

(** An attribute as the specification types it, and as both scripts and the
    interpreter reproduce it: None, a boolean, an integer of at most
    [int_max_str_digits] digits, a float other than NaN, or a string without
    a surrogate pair. *)
Definition attribute_ok (v : json) : bool :=
  match v with
  | JNull | JBool _ => true
  | JInt n => Z.abs n <? 10 ^ int_max_str_digits
  | JFloat t => float_text t
  | JStr s => stable_str s
  | JList _ | JDict _ => false
  end.

(** A thread whose seven attributes are such. *)
Definition thread_stable (t : EmbThread) : bool :=
  forallb attribute_ok (thread_values t).

(** The thread without attributes. *)
Definition no_attributes : EmbThread :=
  mkThread JNull JNull JNull JNull JNull JNull JNull.

Definition is_dict (v : json) : bool :=
  match v with
  | JDict _ => true
  | _ => false
  end.

(** ** Concrete inputs *)

(** The end-to-end example of the specification: two stitches and one
    thread with a colour and a brand. *)
Definition example_stitches : list stitch := [(0, 0, 1); (10, 20, 0)].

Definition example_thread : EmbThread :=
  mkThread (JStr (lit "ff0000")) JNull JNull JNull (JStr (lit "Acme")) JNull JNull.

Definition example_threads : list EmbThread := [example_thread].

(** What [read.py] writes for the example. *)
Definition example_container : bytes :=
  match Encode example_stitches example_threads with
  | Ok b => b
  | Raise _ => []
  end.


(** A file that declares five stitches and holds one. *)
Definition truncated_example : bytes := le32 5 ++ row_bytes (1, 2, 3).

(** A stitch list with a component one past the largest signed 32-bit
    integer. *)
Definition overflow_stitches : list stitch := [(0, 0, 1); (2147483648, 0, 0)].

(** A thread with a float weight, a negative number, an accented letter and
    a surrogate that is not part of a pair. *)
Definition weighted_thread : EmbThread :=
  mkThread (JStr (lit "00ff00")) (JStr [233; 55357; 65]) (JInt (-7)) JNull
           (JStr (lit "Acme")) (JBool true) (JFloat (lit "40.0")).

(** A thread whose description is the two code points of a surrogate pair,
    and the thread whose description is the one character the pair
    encodes. *)
Definition pair_thread : EmbThread :=
  mkThread JNull (JStr [55357; 56832]) JNull JNull JNull JNull JNull.

Definition joined_thread : EmbThread :=
  mkThread JNull (JStr [128512]) JNull JNull JNull JNull JNull.

(** A thread whose description is the letter a, [n] times. *)
Definition long_description (n : nat) : EmbThread :=
  mkThread JNull (JStr (repeat 97 n)) JNull JNull JNull JNull JNull.

(** ** The vocabulary of the further properties *)

(** The stitches in front of the first one [struct.pack] rejects. *)
Fixpoint good_prefix (rows : list stitch) : list stitch :=
  match rows with
  | [] => []
  | r :: rows' => if stitch_ok r then r :: good_prefix rows' else []
  end.

(** A value without a [float] in it. *)
Fixpoint float_free (v : json) : bool :=
  match v with
  | JNull | JBool _ | JInt _ | JStr _ => true
  | JFloat _ => false
  | JList l => forallb float_free l
  | JDict d => forallb (fun kv => float_free (snd kv)) d
  end.

(** A thread without a [float] in its seven attributes. *)
Definition thread_float_free (t : EmbThread) : bool :=
  forallb float_free (thread_values t).

(** The thread [dict_to_thread] makes of a dict. *)
Definition thread_of_dict (d : pydict) : EmbThread :=
  {| color := dict_get (lit "hex_color") d;
     description := dict_get (lit "description") d;
     catalog_number := dict_get (lit "catalog_number") d;
     details := dict_get (lit "details") d;
     brand := dict_get (lit "brand") d;
     chart := dict_get (lit "chart") d;
     weight := dict_get (lit "weight") d |}.

(** The container [read.py] would write for these stitches around the
    metadata text of the given value. *)
Definition container_of (stitches : list stitch) (metadata : json) : bytes :=
  container stitches (map byte.of_Z (dumps metadata)).

(** A thread whose description holds a character outside ASCII, an unpaired
    surrogate and a character outside the BMP. *)
Definition unicode_thread : EmbThread :=
  mkThread (JInt 16711680) (JStr [233; 55357; 128512]) JNull JNull JNull JNull
           (JInt 40).

(** Thread objects as another producer may write them: an unknown key, a
    missing key, no key at all. *)
Definition foreign_dicts : list pydict :=
  [ [(lit "brand", JStr (lit "Acme")); (lit "note", JInt 1)]; [] ].

(** A file without stitches that declares a hundred bytes of metadata and
    holds two. *)
Definition overdeclared_example : bytes :=
  le32 0 ++ le32 100 ++ map byte.of_Z (lit "[]").

(** * Lemmas *)

(** ** [struct] *)

Lemma in_u32_true n : Struct.in_u32 n = true <-> 0 <= n < 2 ^ 32.
Proof. unfold Struct.in_u32. rewrite andb_true_iff, Z.leb_le, Z.ltb_lt. tauto. Qed.

Lemma in_i32_true n : Struct.in_i32 n = true <-> - 2 ^ 31 <= n < 2 ^ 31.
Proof. unfold Struct.in_i32. rewrite andb_true_iff, Z.leb_le, Z.ltb_lt. tauto. Qed.

Lemma pack_I_length n b : Struct.pack_I n = Ok b -> length b = 4%nat.
Proof.
  unfold Struct.pack_I. destruct (Struct.in_u32 n); [|discriminate].
  intros [= <-]. apply length_le_split.
Qed.

Lemma pack_i_length n b : Struct.pack_i n = Ok b -> length b = 4%nat.
Proof.
  unfold Struct.pack_i. destruct (Struct.in_i32 n); [|discriminate].
  intros [= <-]. apply length_le_split.
Qed.

Lemma unpack_pack_I n b :
  Struct.pack_I n = Ok b -> Struct.unpack_I b = Ok n.
Proof.
  intros H. unfold Struct.unpack_I. rewrite (pack_I_length _ _ H). simpl.
  unfold Struct.pack_I in H. destruct (Struct.in_u32 n) eqn:E; [|discriminate].
  injection H as <-. apply in_u32_true in E.
  rewrite le_combine_split. f_equal. apply Z.mod_small.
  change (Z.of_nat 4 * 8) with 32. lia.
Qed.

Lemma unpack_pack_i n b :
  Struct.pack_i n = Ok b -> Struct.unpack_i b = n.
Proof.
  unfold Struct.pack_i. destruct (Struct.in_i32 n) eqn:E; [|discriminate].
  intros [= <-]. apply in_i32_true in E.
  unfold Struct.unpack_i, Struct.to_signed32. rewrite le_combine_split.
  change (Z.of_nat 4 * 8) with 32.
  assert (Hm : n mod 2 ^ 32 = if n <? 0 then n + 2 ^ 32 else n).
  { destruct (Z.ltb_spec n 0).
    - symmetry. apply (Z.mod_unique n (2 ^ 32) (-1)); lia.
    - apply Z.mod_small. lia. }
  rewrite Hm. destruct (Z.ltb_spec n 0).
  - destruct (Z.ltb_spec (n + 2 ^ 32) (2 ^ 31)); lia.
  - destruct (Z.ltb_spec n (2 ^ 31)); lia.
Qed.

(** ** The framing read by [write.py] *)

Lemma unpack_iii_firstn f :
  (12 <= length f)%nat ->
  unpack_iii (firstn 12 f)
  = Ok (unpack_i (firstn 4 f), unpack_i (firstn 4 (skipn 4 f)),
        unpack_i (firstn 4 (skipn 8 f))).
Proof.
  intros H. unfold unpack_iii.
  rewrite length_firstn, Nat.min_l by exact H. simpl Nat.eqb. cbv iota.
  do 12 (destruct f as [|? f]; [simpl in H; lia|]). reflexivity.
Qed.

Lemma unpack_iii_short f :
  (length f < 12)%nat -> unpack_iii (firstn 12 f) = Raise struct_error.
Proof.
  intros H. unfold unpack_iii.
  rewrite length_firstn, Nat.min_r by lia.
  destruct (Nat.eqb_spec (length f) 12); [lia | reflexivity].
Qed.

Lemma unpack_I_short f :
  (length f < 4)%nat -> unpack_I (firstn 4 f) = Raise struct_error.
Proof.
  intros H. unfold unpack_I.
  rewrite length_firstn, Nat.min_r by lia.
  destruct (Nat.eqb_spec (length f) 4); [lia | reflexivity].
Qed.

Lemma unpack_I_firstn f :
  (4 <= length f)%nat -> unpack_I (firstn 4 f) = Ok (le_combine (firstn 4 f)).
Proof.
  intros H. unfold unpack_I.
  rewrite length_firstn, Nat.min_l by exact H. reflexivity.
Qed.

Lemma read_rows_enough n : forall f,
  (12 * n <= length f)%nat ->
  read_rows n f = (Ok (rows_of n f), skipn (12 * n) f).
Proof.
  induction n as [|n IH]; intros f H.
  - reflexivity.
  - cbn [read_rows rows_of]. unfold iobind at 1, read at 1.
    change (Z.to_nat 12) with 12%nat.
    unfold iobind at 1, lift at 1.
    rewrite unpack_iii_firstn by lia.
    unfold iobind at 1. rewrite IH by (rewrite length_skipn; lia).
    unfold ret. rewrite skipn_skipn.
    replace (12 * n + 12)%nat with (12 * S n)%nat by lia. reflexivity.
Qed.

Lemma read_rows_short n : forall f,
  (length f < 12 * n)%nat ->
  exists f', read_rows n f = (Raise struct_error, f').
Proof.
  induction n as [|n IH]; intros f H.
  - simpl in H. lia.
  - cbn [read_rows]. unfold iobind at 1, read at 1.
    change (Z.to_nat 12) with 12%nat.
    unfold iobind at 1, lift at 1.
    destruct (Nat.lt_ge_cases (length f) 12) as [Hs | Hl].
    + rewrite unpack_iii_short by exact Hs. eauto.
    + rewrite unpack_iii_firstn by exact Hl.
      unfold iobind at 1.
      destruct (IH (skipn 12 f)) as [f' ->]; [rewrite length_skipn; lia|].
      eauto.
Qed.

Lemma read_container_frame input :
  read_container input
  = (frame <- read_frame ;;
     str <- lift (Utf8.decode (snd frame)) ;;
     thread_dicts <- lift (loads str) ;;
     ret (fst frame, thread_dicts)) input.
Proof.
  unfold read_container, read_frame, iobind, read, lift, ret.
  repeat match goal with
         | |- context [match ?x with Ok _ => _ | Raise _ => _ end] =>
             destruct x; try reflexivity
         | |- context [let (_, _) := ?x in _] => destruct x
         end.
Qed.

(** A file too short for its header, its rows and the size field. *)
Lemma read_frame_short b :
  Z.of_nat (length b) < 4 + 12 * declared_count b + 4 ->
  exists f', read_frame b = (Raise struct_error, f').
Proof.
  intros H. unfold read_frame.
  unfold iobind at 1, read at 1. change (Z.to_nat 4) with 4%nat.
  unfold iobind at 1, lift at 1.
  assert (Hc : 0 <= declared_count b)
    by (unfold declared_count; apply le_combine_bound).
  destruct (Nat.lt_ge_cases (length b) 4) as [Hs | Hl].
  { rewrite unpack_I_short by exact Hs. eauto. }
  rewrite unpack_I_firstn by exact Hl. fold (declared_count b).
  unfold iobind at 1.
  set (n := Z.to_nat (declared_count b)).
  assert (Hn : Z.of_nat n = declared_count b) by (apply Z2Nat.id; exact Hc).
  destruct (Nat.lt_ge_cases (length (skipn 4 b)) (12 * n)) as [Hr | Hr].
  { destruct (read_rows_short n _ Hr) as [f' ->]. eauto. }
  rewrite read_rows_enough by exact Hr.
  unfold iobind at 1, read at 1. change (Z.to_nat 4) with 4%nat.
  unfold iobind at 1, lift at 1.
  rewrite unpack_I_short; [eauto|].
  rewrite !length_skipn in *. lia.
Qed.

(** A file that holds its header, its rows and the size field: the blob
    is what is left, up to the declared size. *)
Lemma read_frame_enough b :
  4 + 12 * declared_count b + 4 <= Z.of_nat (length b) ->
  let n := Z.to_nat (declared_count b) in
  read_frame b
  = (Ok (rows_of n (skipn 4 b),
         firstn (Z.to_nat (declared_size b)) (skipn (8 + 12 * n) b)),
     skipn (Z.to_nat (declared_size b)) (skipn (8 + 12 * n) b)).
Proof.
  intros H n. unfold read_frame.
  unfold iobind at 1, read at 1. change (Z.to_nat 4) with 4%nat.
  unfold iobind at 1, lift at 1.
  assert (Hc : 0 <= declared_count b)
    by (unfold declared_count; apply le_combine_bound).
  assert (Hn : Z.of_nat n = declared_count b) by (apply Z2Nat.id; exact Hc).
  rewrite unpack_I_firstn by lia. fold (declared_count b). fold n.
  unfold iobind at 1.
  rewrite read_rows_enough by (rewrite length_skipn; lia).
  unfold iobind at 1, read at 1. change (Z.to_nat 4) with 4%nat.
  unfold iobind at 1, lift at 1.
  rewrite unpack_I_firstn by (rewrite !length_skipn; lia).
  rewrite skipn_skipn. replace (12 * n + 4)%nat with (4 + 12 * n)%nat by lia.
  fold n. fold (declared_size b).
  unfold iobind at 1, read at 1, ret.
  rewrite !skipn_skipn.
  replace (4 + (4 + 12 * n))%nat with (8 + 12 * n)%nat by lia.
  reflexivity.
Qed.

(** ** The framing written by [read.py] *)

Lemma le32_split n : le_split 4 n = le32 n.
Proof.
  unfold le32, le_split.
  rewrite !Z.shiftr_shiftr, !Z.shiftr_div_pow2 by lia. reflexivity.
Qed.

Lemma le32_length n : length (le32 n) = 4%nat.
Proof. reflexivity. Qed.

Lemma row_bytes_length r : length (row_bytes r) = 12%nat.
Proof. destruct r as [[x y] c]. reflexivity. Qed.

Lemma rows_length rows :
  length (flat_map row_bytes rows) = (12 * length rows)%nat.
Proof.
  induction rows as [|r rows IH]; [reflexivity|].
  cbn [flat_map]. rewrite length_app, row_bytes_length, IH. simpl length. lia.
Qed.

Lemma pack_I_ok n : in_u32 n = true -> pack_I n = Ok (le32 n).
Proof. intros H. unfold pack_I. rewrite H, le32_split. reflexivity. Qed.

Lemma pack_I_range n : in_u32 n = false -> pack_I n = Raise struct_error.
Proof. intros H. unfold pack_I. rewrite H. reflexivity. Qed.

Lemma pack_i_ok n : in_i32 n = true -> pack_i n = Ok (le32 n).
Proof. intros H. unfold pack_i. rewrite H, le32_split. reflexivity. Qed.

Lemma pack_iii_ok r : stitch_ok r = true -> pack_iii r = Ok (row_bytes r).
Proof.
  destruct r as [[x y] c]. unfold stitch_ok. rewrite !andb_true_iff.
  intros [[Hx Hy] Hc]. unfold pack_iii.
  rewrite (pack_i_ok _ Hx), (pack_i_ok _ Hy), (pack_i_ok _ Hc). reflexivity.
Qed.

Lemma pack_iii_range r : stitch_ok r = false -> pack_iii r = Raise struct_error.
Proof.
  destruct r as [[x y] c]. unfold stitch_ok, pack_iii, pack_i.
  destruct (in_i32 x), (in_i32 y), (in_i32 c); simpl; intros H;
    try discriminate H; reflexivity.
Qed.

Lemma write_rows_ok rows : forall f,
  forallb stitch_ok rows = true ->
  write_rows rows f = (Ok tt, f ++ flat_map row_bytes rows).
Proof.
  induction rows as [|r rows IH]; intros f H.
  - cbn. rewrite app_nil_r. reflexivity.
  - cbn [forallb] in H. apply andb_true_iff in H as [Hr Hrows].
    cbn [write_rows flat_map]. unfold iobind at 1, lift at 1.
    rewrite (pack_iii_ok _ Hr). unfold iobind at 1, write at 1.
    rewrite IH by exact Hrows. rewrite <- app_assoc. reflexivity.
Qed.

Lemma write_rows_range rows : forall f,
  forallb stitch_ok rows = false ->
  exists f', write_rows rows f = (Raise struct_error, f').
Proof.
  induction rows as [|r rows IH]; intros f H; [discriminate|].
  cbn [forallb] in H. cbn [write_rows]. unfold iobind at 1, lift at 1.
  destruct (stitch_ok r) eqn:Hr.
  - rewrite (pack_iii_ok _ Hr). unfold iobind at 1, write at 1.
    apply IH. exact H.
  - rewrite (pack_iii_range _ Hr). eauto.
Qed.

Lemma write_container_ok stitches tb :
  forallb stitch_ok stitches = true ->
  Z.of_nat (length stitches) < 2 ^ 32 ->
  Z.of_nat (length tb) < 2 ^ 32 ->
  write_container stitches tb [] = (Ok tt, container stitches tb).
Proof.
  intros Hs Hn Hm. unfold write_container.
  unfold iobind at 1, lift at 1.
  rewrite pack_I_ok by (apply in_u32_true; lia).
  unfold iobind at 1, write at 1. unfold iobind at 1.
  rewrite write_rows_ok by exact Hs.
  unfold iobind at 1, lift at 1.
  rewrite pack_I_ok by (apply in_u32_true; lia).
  unfold iobind at 1, write at 1. unfold write.
  unfold container. rewrite <- !app_assoc. reflexivity.
Qed.

Lemma container_length stitches tb :
  Z.of_nat (length (container stitches tb))
  = 8 + 12 * Z.of_nat (length stitches) + Z.of_nat (length tb).
Proof.
  unfold container. rewrite !length_app, !le32_length, rows_length. lia.
Qed.

Lemma Encode_container stitches threads tb :
  forallb stitch_ok stitches = true ->
  Z.of_nat (length stitches) < 2 ^ 32 ->
  Utf8.encode (threads_json threads) = Ok tb ->
  Z.of_nat (length tb) < 2 ^ 32 ->
  Encode stitches threads = Ok (container stitches tb).
Proof.
  intros Hs Hn Hj Hm. unfold Encode, ReadPy.main. simpl.
  rewrite Hj, write_container_ok by assumption. reflexivity.
Qed.

(** ** Reading back what was written *)

Lemma unpack_i_le32 n : in_i32 n = true -> unpack_i (le32 n) = n.
Proof. intros H. apply unpack_pack_i. apply pack_i_ok. exact H. Qed.

Lemma unpack_iii_row r : stitch_ok r = true -> unpack_iii (row_bytes r) = Ok r.
Proof.
  destruct r as [[x y] c]. unfold stitch_ok. rewrite !andb_true_iff.
  intros [[Hx Hy] Hc]. unfold unpack_iii, row_bytes.
  change (length (le32 x ++ le32 y ++ le32 c) =? 12)%nat with true. cbv iota.
  change (firstn 4 (le32 x ++ le32 y ++ le32 c)) with (le32 x).
  change (firstn 4 (skipn 4 (le32 x ++ le32 y ++ le32 c))) with (le32 y).
  change (firstn 4 (skipn 8 (le32 x ++ le32 y ++ le32 c))) with (le32 c).
  rewrite !unpack_i_le32 by assumption. reflexivity.
Qed.

Lemma firstn_exact {A} (l r : list A) n :
  n = length l -> firstn n (l ++ r) = l.
Proof.
  intros ->. rewrite firstn_app, Nat.sub_diag, firstn_all. simpl.
  apply app_nil_r.
Qed.

Lemma skipn_exact {A} (l r : list A) n :
  n = length l -> skipn n (l ++ r) = r.
Proof.
  intros ->. rewrite skipn_app, Nat.sub_diag, skipn_all. reflexivity.
Qed.

Lemma read_rows_written rows : forall rest,
  forallb stitch_ok rows = true ->
  read_rows (length rows) (flat_map row_bytes rows ++ rest) = (Ok rows, rest).
Proof.
  induction rows as [|r rows IH]; intros rest H; [reflexivity|].
  cbn [forallb] in H. apply andb_true_iff in H as [Hr Hrows].
  cbn [length read_rows flat_map]. rewrite <- app_assoc.
  unfold iobind at 1, read at 1. change (Z.to_nat 12) with 12%nat.
  rewrite firstn_exact, skipn_exact by (symmetry; apply row_bytes_length).
  unfold iobind at 1, lift at 1. rewrite unpack_iii_row by exact Hr.
  unfold iobind at 1. rewrite IH by exact Hrows. reflexivity.
Qed.

Lemma unpack_I_le32 n : in_u32 n = true -> unpack_I (le32 n) = Ok n.
Proof. intros H. apply unpack_pack_I. apply pack_I_ok. exact H. Qed.

(** The importer's reads recover the stitches and the blob of a written
    container, and stop where the container stops. *)
Lemma read_frame_container stitches tb rest :
  forallb stitch_ok stitches = true ->
  Z.of_nat (length stitches) < 2 ^ 32 ->
  Z.of_nat (length tb) < 2 ^ 32 ->
  read_frame (container stitches tb ++ rest) = (Ok (stitches, tb), rest).
Proof.
  intros Hs Hn Hm. unfold read_frame, container. rewrite <- !app_assoc.
  unfold iobind at 1, read at 1. change (Z.to_nat 4) with 4%nat.
  rewrite firstn_exact, skipn_exact by reflexivity.
  unfold iobind at 1, lift at 1.
  rewrite unpack_I_le32 by (apply in_u32_true; lia).
  unfold iobind at 1. rewrite Nat2Z.id, read_rows_written by exact Hs.
  unfold iobind at 1, read at 1. change (Z.to_nat 4) with 4%nat.
  rewrite firstn_exact, skipn_exact by reflexivity.
  unfold iobind at 1, lift at 1.
  rewrite unpack_I_le32 by (apply in_u32_true; lia).
  unfold iobind at 1, read at 1, ret. rewrite Nat2Z.id.
  rewrite firstn_exact, skipn_exact by reflexivity. reflexivity.
Qed.

Lemma Decode_frame b stitches blob rest :
  read_frame b = (Ok (stitches, blob), rest) -> Decode b = finish stitches blob.
Proof.
  intros H. unfold Decode, WritePy.main, finish.
  rewrite read_container_frame. unfold iobind at 1. rewrite H.
  unfold iobind, lift, ret. cbn [fst snd].
  destruct (Utf8.decode blob) as [s|e]; cbn [fst bind]; [|reflexivity].
  destruct (loads s) as [v|e]; cbn [fst bind]; [|reflexivity].
  destruct (iter v) as [items|e]; cbn [bind]; [|reflexivity].
  destruct (list_map dict_to_thread items); reflexivity.
Qed.

Lemma Decode_frame_raise b e rest :
  read_frame b = (Raise e, rest) -> Decode b = Raise e.
Proof.
  intros H. unfold Decode, WritePy.main.
  rewrite read_container_frame. unfold iobind at 1. rewrite H. reflexivity.
Qed.

(** ** Strings through [escape_char] and [scanstring] *)

Lemma hex_value_digit d : 0 <= d < 16 -> hex_value (hex_digit d) = Some d.
Proof.
  intros H.
  assert (d = 0 \/ d = 1 \/ d = 2 \/ d = 3 \/ d = 4 \/ d = 5 \/ d = 6 \/ d = 7 \/
          d = 8 \/ d = 9 \/ d = 10 \/ d = 11 \/ d = 12 \/ d = 13 \/ d = 14 \/ d = 15)
    as Hd by lia.
  repeat destruct Hd as [-> | Hd]; try subst d; reflexivity.
Qed.

Lemma decode_u_escape c :
  0 <= c < 65536 ->
  decode_uXXXX (hex_digit (c / 4096 mod 16)) (hex_digit (c / 256 mod 16))
               (hex_digit (c / 16 mod 16)) (hex_digit (c mod 16)) = Some c.
Proof.
  intros H. unfold decode_uXXXX.
  rewrite !hex_value_digit by (apply Z.mod_pos_bound; lia).
  f_equal. Z.div_mod_to_equations. lia.
Qed.

Lemma scanstring_plain c r :
  c <> 34 -> c <> 92 -> 32 <= c ->
  scanstring (c :: r) = push c (scanstring r).
Proof.
  intros H1 H2 H3. cbn [scanstring].
  destruct (Z.eqb_spec c 34); [contradiction|].
  destruct (Z.eqb_spec c 92); [contradiction|].
  destruct (Z.ltb_spec c 32); [lia|]. reflexivity.
Qed.

Lemma scanstring_short e ch r :
  e <> 117 -> backslash e = Some ch ->
  scanstring (92 :: e :: r) = push ch (scanstring r).
Proof.
  intros H1 H2. cbn [scanstring].
  change (92 =? 34) with false. change (92 =? 92) with true. cbv iota.
  destruct (Z.eqb_spec e 117); [contradiction|]. rewrite H2. reflexivity.
Qed.

Lemma scanstring_u a b c d uni r :
  decode_uXXXX a b c d = Some uni -> is_high_surrogate uni = false ->
  scanstring (92 :: 117 :: a :: b :: c :: d :: r) = push uni (scanstring r).
Proof.
  intros H1 H2. cbn [scanstring].
  change (92 =? 34) with false. change (92 =? 92) with true.
  change (117 =? 117) with true. cbv iota.
  rewrite H1, H2. reflexivity.
Qed.

Lemma scanstring_pair a b c d a2 b2 c2 d2 hi lo r :
  decode_uXXXX a b c d = Some hi -> is_high_surrogate hi = true ->
  decode_uXXXX a2 b2 c2 d2 = Some lo -> is_low_surrogate lo = true ->
  scanstring (92 :: 117 :: a :: b :: c :: d :: 92 :: 117 :: a2 :: b2 :: c2 :: d2 :: r)
  = push (join_surrogates hi lo) (scanstring r).
Proof.
  intros H1 H2 H3 H4. cbn [scanstring].
  change (92 =? 34) with false. change (92 =? 92) with true.
  change (117 =? 117) with true. cbv iota.
  rewrite H1, H2. cbn [andb]. rewrite H3, H4. reflexivity.
Qed.

Lemma lor_shifted a b k :
  0 <= k -> 0 <= b < 2 ^ k -> Z.lor (a * 2 ^ k) b = a * 2 ^ k + b.
Proof.
  intros Hk Hb.
  assert (Hl : Z.land (a * 2 ^ k) b = 0).
  { apply Z.bits_inj'. intros n Hn. rewrite Z.land_spec, Z.bits_0.
    destruct (Z.lt_ge_cases n k) as [Hlt | Hge].
    - rewrite Z.mul_pow2_bits_low by lia. reflexivity.
    - rewrite <- (Z.mod_small b (2 ^ k)) by lia.
      rewrite Z.mod_pow2_bits_high by lia. apply andb_false_r. }
  pose proof (Z.add_lor_land (a * 2 ^ k) b) as H. lia.
Qed.

Lemma high_surrogate_of n :
  0 <= n < 2 ^ 20 ->
  Z.lor 55296 (Z.land (Z.shiftr n 10) 1023) = 55296 + n / 1024.
Proof.
  intros H. change 1023 with (Z.ones 10).
  rewrite Z.land_ones, Z.shiftr_div_pow2 by lia.
  change (2 ^ 10) with 1024.
  assert (0 <= n / 1024 < 1024) by (Z.div_mod_to_equations; lia).
  rewrite Z.mod_small by lia.
  change 55296 with (54 * 2 ^ 10). apply lor_shifted; lia.
Qed.

Lemma low_surrogate_of n :
  0 <= n -> Z.lor 56320 (Z.land n 1023) = 56320 + n mod 1024.
Proof.
  intros H. change 1023 with (Z.ones 10). rewrite Z.land_ones by lia.
  change (2 ^ 10) with 1024.
  assert (0 <= n mod 1024 < 1024) by (apply Z.mod_pos_bound; lia).
  change 56320 with (55 * 2 ^ 10). apply lor_shifted; lia.
Qed.

Lemma join_surrogates_of n :
  0 <= n < 2 ^ 20 ->
  join_surrogates (55296 + n / 1024) (56320 + n mod 1024) = 65536 + n.
Proof.
  intros H. unfold join_surrogates.
  replace (55296 + n / 1024 - 55296) with (n / 1024) by lia.
  replace (56320 + n mod 1024 - 56320) with (n mod 1024) by lia.
  rewrite Z.shiftl_mul_pow2 by lia.
  assert (0 <= n mod 1024 < 1024) by (apply Z.mod_pos_bound; lia).
  rewrite lor_shifted by lia. change (2 ^ 10) with 1024.
  Z.div_mod_to_equations. lia.
Qed.

(** One character through [escape_char] and back through [scanstring],
    unless it is a high surrogate, whose reading depends on what follows. *)
Lemma scanstring_char c tail :
  is_codepoint c = true -> is_high_surrogate c = false ->
  scanstring (escape_char c ++ tail) = push c (scanstring tail).
Proof.
  unfold is_codepoint. intros H Hs.
  apply andb_true_iff in H as [H0 H1]. apply Z.leb_le in H0, H1.
  pose proof Hs as Hh. unfold is_high_surrogate in Hs.
  apply andb_false_iff in Hs. rewrite Z.leb_gt, Z.leb_gt in Hs.
  unfold escape_char.
  destruct ((32 <=? c) && (c <=? 126) && negb (c =? 34) && negb (c =? 92)) eqn:Hp.
  { rewrite !andb_true_iff, !negb_true_iff, !Z.leb_le, !Z.eqb_neq in Hp.
    apply scanstring_plain; lia. }
  destruct (Z.eqb_spec c 92) as [-> | N92]; [reflexivity|].
  destruct (Z.eqb_spec c 34) as [-> | N34]; [reflexivity|].
  destruct (Z.eqb_spec c 8) as [-> | N8]; [reflexivity|].
  destruct (Z.eqb_spec c 12) as [-> | N12]; [reflexivity|].
  destruct (Z.eqb_spec c 10) as [-> | N10]; [reflexivity|].
  destruct (Z.eqb_spec c 13) as [-> | N13]; [reflexivity|].
  destruct (Z.eqb_spec c 9) as [-> | N9]; [reflexivity|].
  destruct (Z.ltb_spec c 65536) as [Hb | Hb].
  - unfold u_escape. cbn [app].
    apply scanstring_u; [apply decode_u_escape; lia | exact Hh].
  - cbv zeta. unfold u_escape. cbn [app].
    rewrite high_surrogate_of, low_surrogate_of by lia.
    assert (0 <= (c - 65536) / 1024 < 1024) by (Z.div_mod_to_equations; lia).
    assert (0 <= (c - 65536) mod 1024 < 1024) by (apply Z.mod_pos_bound; lia).
    rewrite (scanstring_pair _ _ _ _ _ _ _ _
               (55296 + (c - 65536) / 1024) (56320 + (c - 65536) mod 1024)).
    + rewrite join_surrogates_of by lia. f_equal. lia.
    + apply decode_u_escape. lia.
    + unfold is_high_surrogate. apply andb_true_iff.
      rewrite !Z.leb_le. lia.
    + apply decode_u_escape. lia.
    + unfold is_low_surrogate. apply andb_true_iff.
      rewrite !Z.leb_le. lia.
Qed.

(** The escape of a high surrogate is read as that surrogate when the
    escape of a low surrogate does not follow. *)
Lemma scanstring_lone a b c d hi tail :
  decode_uXXXX a b c d = Some hi -> is_high_surrogate hi = true ->
  (forall a2 b2 c2 d2 r3,
     tail = 92 :: 117 :: a2 :: b2 :: c2 :: d2 :: r3 ->
     exists uni2, decode_uXXXX a2 b2 c2 d2 = Some uni2
                  /\ is_low_surrogate uni2 = false) ->
  scanstring (92 :: 117 :: a :: b :: c :: d :: tail) = push hi (scanstring tail).
Proof.
  intros H1 H2 H3. cbn [scanstring].
  change (92 =? 34) with false. change (92 =? 92) with true.
  change (117 =? 117) with true. cbv iota.
  rewrite H1, H2.
  destruct tail as [|bs [|u [|a2 [|b2 [|c2 [|d2 r3]]]]]]; try reflexivity.
  destruct (Z.eqb_spec bs 92) as [-> | Nbs]; [|reflexivity].
  destruct (Z.eqb_spec u 117) as [-> | Nu]; [|reflexivity].
  destruct (H3 _ _ _ _ _ eq_refl) as (uni2 & Hd & Hl).
  cbn [andb]. rewrite Hd, Hl. reflexivity.
Qed.

(** The text [escape_char] writes for anything but a low surrogate does not
    start with the escape of a low surrogate. *)
Lemma escape_char_not_low c tail a2 b2 c2 d2 r3 :
  is_codepoint c = true -> is_low_surrogate c = false ->
  escape_char c ++ tail = 92 :: 117 :: a2 :: b2 :: c2 :: d2 :: r3 ->
  exists uni2, decode_uXXXX a2 b2 c2 d2 = Some uni2 /\ is_low_surrogate uni2 = false.
Proof.
  unfold is_codepoint. intros H Hl.
  apply andb_true_iff in H as [H0 H1]. apply Z.leb_le in H0, H1.
  unfold escape_char.
  destruct ((32 <=? c) && (c <=? 126) && negb (c =? 34) && negb (c =? 92)) eqn:Hp.
  { rewrite !andb_true_iff, !negb_true_iff, !Z.leb_le, !Z.eqb_neq in Hp.
    cbn [app]. intros [= -> _]. lia. }
  repeat match goal with
         | |- context [if ?x =? ?y then _ else _] =>
             destruct (Z.eqb_spec x y); [discriminate|]
         end.
  destruct (Z.ltb_spec c 65536) as [Hb | Hb].
  - unfold u_escape. cbn [app]. intros [= <- <- <- <- _].
    exists c. split; [apply decode_u_escape; lia | exact Hl].
  - cbv zeta. rewrite high_surrogate_of, <- app_assoc by lia.
    generalize (u_escape (Z.lor 56320 (Z.land (c - 65536) 1023)) ++ tail).
    assert (Hhi : 55296 <= 55296 + (c - 65536) / 1024 < 56320)
      by (Z.div_mod_to_equations; lia).
    generalize dependent (55296 + (c - 65536) / 1024). intros hi Hhi tail'.
    unfold u_escape. cbn [app]. intros [= <- <- <- <- _].
    exists hi. split; [apply decode_u_escape; lia|].
    unfold is_low_surrogate. apply andb_false_iff. rewrite Z.leb_gt. lia.
Qed.

Lemma escape_char_high c :
  is_high_surrogate c = true -> escape_char c = u_escape c.
Proof.
  unfold is_high_surrogate. rewrite andb_true_iff, !Z.leb_le. intros H.
  unfold escape_char.
  destruct (Z.leb_spec c 126); [lia|]. rewrite andb_false_r. cbn [andb].
  repeat match goal with
         | |- context [if ?x =? ?y then _ else _] =>
             destruct (Z.eqb_spec x y); [lia|]
         end.
  destruct (Z.ltb_spec c 65536); [reflexivity | lia].
Qed.

Lemma stable_str_cons c s :
  stable_str (c :: s) = true ->
  is_codepoint c = true /\ stable_str s = true
  /\ match s with
     | c' :: _ => is_high_surrogate c = true -> is_low_surrogate c' = false
     | [] => True
     end.
Proof.
  unfold stable_str. cbn [forallb pair_free].
  rewrite !andb_true_iff. intros [[Hc Hs] [Hp Hr]].
  repeat split; try assumption.
  destruct s as [|c' s']; [trivial|]. intros Hh.
  rewrite Hh in Hp. cbn [andb] in Hp. apply negb_true_iff, Hp.
Qed.

(** A string through [encode_basestring_ascii] and back through
    [scanstring]. *)
Lemma scanstring_stable s : forall rest,
  stable_str s = true ->
  scanstring (flat_map escape_char s ++ 34 :: rest) = Some (s, rest).
Proof.
  induction s as [|c s IH]; intros rest H; [reflexivity|].
  apply stable_str_cons in H as (Hc & Hs & Hn).
  cbn [flat_map]. rewrite <- app_assoc.
  destruct (is_high_surrogate c) eqn:Hh.
  - rewrite (escape_char_high c Hh). unfold u_escape. cbn [app].
    assert (Hr : 0 <= c < 65536).
    { unfold is_high_surrogate in Hh. rewrite andb_true_iff, !Z.leb_le in Hh. lia. }
    rewrite (scanstring_lone _ _ _ _ c); [| apply decode_u_escape, Hr | exact Hh |].
    + rewrite IH by exact Hs. reflexivity.
    + intros a2 b2 c2 d2 r3. destruct s as [|c' s']; [discriminate|].
      apply stable_str_cons in Hs as (Hc' & _ & _).
      cbn [flat_map]. rewrite <- app_assoc.
      apply escape_char_not_low; [exact Hc' | apply Hn; reflexivity].
  - rewrite scanstring_char by assumption. rewrite IH by exact Hs. reflexivity.
Qed.

Lemma scalar_stable_str s : forallb scalar s = true -> stable_str s = true.
Proof.
  unfold stable_str. intros H. apply andb_true_iff. split.
  - rewrite forallb_forall in *. intros c Hin. specialize (H c Hin).
    unfold scalar in H. rewrite !andb_true_iff in H. unfold is_codepoint.
    apply andb_true_iff. tauto.
  - induction s as [|c s IH]; [reflexivity|].
    cbn [forallb] in H. apply andb_true_iff in H as [Hc Hs].
    cbn [pair_free]. rewrite (IH Hs), andb_true_r.
    destruct s as [|c' s']; [reflexivity|].
    unfold scalar, Utf8.is_surrogate in Hc.
    rewrite !andb_true_iff, negb_true_iff, andb_false_iff, !Z.leb_le, !Z.leb_gt in Hc.
    replace (is_high_surrogate c) with false; [reflexivity|].
    symmetry. unfold is_high_surrogate. apply andb_false_iff.
    rewrite !Z.leb_gt. lia.
Qed.

Lemma scanstring_escaped s rest :
  forallb scalar s = true ->
  scanstring (flat_map escape_char s ++ 34 :: rest) = Some (s, rest).
Proof. intros H. apply scanstring_stable, scalar_stable_str, H. Qed.

(** ** Integers through [int_repr] and the number pattern *)

Lemma delimited_head c r :
  delimited (c :: r) = true -> c = 44 \/ c = 93 \/ c = 125.
Proof. cbn. rewrite !orb_true_iff, !Z.eqb_eq. tauto. Qed.

Lemma digits_value_snoc ds d :
  digits_value (ds ++ [d]) = 10 * digits_value ds + (d - 48).
Proof. unfold digits_value. rewrite fold_left_app. reflexivity. Qed.

Lemma is_digit_true c : is_digit c = true <-> 48 <= c <= 57.
Proof. unfold is_digit. rewrite andb_true_iff, !Z.leb_le. tauto. Qed.

Lemma digits_spec fuel : forall n,
  (0 < fuel)%nat -> 0 <= n < 2 ^ Z.of_nat fuel ->
  forallb is_digit (digits fuel n) = true
  /\ digits_value (digits fuel n) = n
  /\ exists c r, digits fuel n = c :: r /\ (c = 48 -> n = 0 /\ r = []).
Proof.
  induction fuel as [|fuel IH]; intros n Hf Hn; [lia|].
  cbn [digits]. destruct (Z.ltb_spec n 10) as [Hs | Hl].
  - split; [|split].
    + cbn [forallb]. rewrite andb_true_r. apply is_digit_true. lia.
    + unfold digits_value. cbn [fold_left]. lia.
    + exists (48 + n), []. split; [reflexivity|]. intros. split; [lia|reflexivity].
  - assert (Hq : 1 <= n / 10 < 2 ^ Z.of_nat fuel).
    { rewrite Nat2Z.inj_succ, Z.pow_succ_r in Hn by lia.
      Z.div_mod_to_equations. lia. }
    assert (Hfuel : (0 < fuel)%nat).
    { destruct fuel; [|lia]. simpl in Hq. lia. }
    destruct (IH (n / 10) Hfuel) as (Hd & Hv & c & r & Hc & Hz); [lia|].
    assert (Hm : 0 <= n mod 10 < 10) by (apply Z.mod_pos_bound; lia).
    split; [|split].
    + rewrite forallb_app, Hd. cbn [forallb andb]. rewrite andb_true_r.
      apply is_digit_true. lia.
    + rewrite digits_value_snoc, Hv. Z.div_mod_to_equations. lia.
    + rewrite Hc. exists c, (r ++ [48 + n mod 10]). split; [reflexivity|].
      intros Hc0. destruct (Hz Hc0). lia.
Qed.

Lemma nat_repr_spec n :
  0 <= n ->
  forallb is_digit (nat_repr n) = true
  /\ digits_value (nat_repr n) = n
  /\ exists c r, nat_repr n = c :: r /\ (c = 48 -> n = 0 /\ r = []).
Proof.
  intros H. unfold nat_repr. apply digits_spec; [lia|].
  rewrite Nat2Z.inj_succ, Z2Nat.id by apply Z.log2_nonneg.
  split; [exact H|].
  destruct (Z.eq_dec n 0) as [-> | Hnz]; [reflexivity|].
  apply Z.log2_spec. lia.
Qed.

Lemma span_digits_app ds : forall rest,
  forallb is_digit ds = true ->
  match rest with [] => True | c :: _ => is_digit c = false end ->
  span_digits (ds ++ rest) = (ds, rest).
Proof.
  induction ds as [|d ds IH]; intros rest Hd Hr.
  - destruct rest as [|c r]; [reflexivity|]. cbn. rewrite Hr. reflexivity.
  - cbn [forallb] in Hd. apply andb_true_iff in Hd as [H1 H2].
    cbn. rewrite H1, IH by assumption. reflexivity.
Qed.

Lemma delimited_not_digit rest :
  delimited rest = true ->
  match rest with [] => True | c :: _ => is_digit c = false end.
Proof.
  destruct rest as [|c r]; [trivial|]. intros H.
  apply delimited_head in H. unfold is_digit.
  destruct H as [-> | [-> | ->]]; reflexivity.
Qed.

Lemma match_frac_delimited rest :
  delimited rest = true -> match_frac rest = ([], rest).
Proof.
  destruct rest as [|c r]; [reflexivity|]. intros H.
  apply delimited_head in H. destruct r as [|d r]; [reflexivity|].
  destruct H as [-> | [-> | ->]]; reflexivity.
Qed.

Lemma match_exp_delimited rest :
  delimited rest = true -> match_exp rest = ([], rest).
Proof.
  destruct rest as [|c r]; [reflexivity|]. intros H.
  apply delimited_head in H.
  destruct H as [-> | [-> | ->]]; reflexivity.
Qed.

(** The digits of a natural number, read as the integer part. *)
Lemma match_digits_nat n rest sign :
  0 <= n -> delimited rest = true ->
  match_digits sign (nat_repr n ++ rest) = Some (sign ++ nat_repr n, rest).
Proof.
  intros Hn Hr. unfold match_digits.
  destruct (nat_repr_spec n Hn) as (Hd & _ & c & r & Hc & Hz).
  rewrite Hc in *. cbn [app]. cbn [forallb] in Hd.
  apply andb_true_iff in Hd as [Hdc Hdr].
  destruct (Z.eqb_spec c 48) as [Hc0 | Hc0].
  - destruct (Hz Hc0) as [_ ->]. subst c. reflexivity.
  - rewrite Hdc, span_digits_app; [reflexivity | exact Hdr |].
    apply delimited_not_digit, Hr.
Qed.

Lemma match_number_int n rest :
  delimited rest = true ->
  match_number (int_repr n ++ rest) = Some (JInt n, rest).
Proof.
  intros Hr. unfold match_number, match_integer, int_repr.
  destruct (Z.ltb_spec n 0) as [Hneg | Hpos].
  - cbn [app match_sign]. change (45 =? 45) with true. cbv iota.
    rewrite match_digits_nat by (lia || assumption).
    rewrite match_frac_delimited, match_exp_delimited by exact Hr.
    cbn [app parse_int]. change (45 =? 45) with true. cbv iota.
    destruct (nat_repr_spec (- n)) as (_ & Hv & _); [lia|].
    rewrite Hv, Z.opp_involutive. reflexivity.
  - destruct (nat_repr_spec n Hpos) as (Hd & Hv & c & r & Hc & Hz).
    assert (Hsign : match_sign (nat_repr n ++ rest) = ([], nat_repr n ++ rest)).
    { rewrite Hc. cbn [app match_sign]. rewrite Hc in Hd. cbn [forallb] in Hd.
      apply andb_true_iff in Hd as [Hdc _]. apply is_digit_true in Hdc.
      destruct (Z.eqb_spec c 45); [lia | reflexivity]. }
    rewrite Hsign, match_digits_nat by assumption.
    rewrite match_frac_delimited, match_exp_delimited by exact Hr.
    cbn [app]. unfold parse_int. rewrite Hc. rewrite Hc in Hd, Hv.
    cbn [forallb] in Hd. apply andb_true_iff in Hd as [Hdc _].
    apply is_digit_true in Hdc.
    destruct (Z.eqb_spec c 45); [lia|]. rewrite Hv. reflexivity.
Qed.

(** The number pattern reads the same text in front of a delimiter as at
    the end of the input. *)
Lemma span_digits_delimited s rest :
  delimited rest = true ->
  span_digits (s ++ rest) = (fst (span_digits s), snd (span_digits s) ++ rest).
Proof.
  intros Hr. induction s as [|c s IH].
  - cbn [app span_digits fst snd]. destruct rest as [|c r]; [reflexivity|].
    cbn [span_digits]. rewrite (delimited_not_digit _ Hr). reflexivity.
  - cbn [app span_digits]. destruct (is_digit c); [|reflexivity].
    rewrite IH. destruct (span_digits s). reflexivity.
Qed.

Lemma match_digits_delimited sign s rest :
  delimited rest = true ->
  match_digits sign (s ++ rest)
  = match match_digits sign s with
    | Some (t, r) => Some (t, r ++ rest)
    | None => None
    end.
Proof.
  intros Hr. destruct s as [|c s].
  - cbn [app]. destruct rest as [|c r]; [reflexivity|].
    apply delimited_head in Hr. destruct Hr as [-> | [-> | ->]]; reflexivity.
  - cbn [app match_digits]. destruct (c =? 48); [reflexivity|].
    destruct (is_digit c); [|reflexivity].
    rewrite span_digits_delimited by exact Hr.
    destruct (span_digits s). reflexivity.
Qed.

Lemma match_integer_delimited s rest :
  delimited rest = true ->
  match_integer (s ++ rest)
  = match match_integer s with
    | Some (t, r) => Some (t, r ++ rest)
    | None => None
    end.
Proof.
  intros Hr. unfold match_integer. destruct s as [|c s].
  - cbn [app]. destruct rest as [|c r]; [reflexivity|].
    apply delimited_head in Hr. destruct Hr as [-> | [-> | ->]]; reflexivity.
  - cbn [app match_sign]. destruct (c =? 45).
    + apply match_digits_delimited, Hr.
    + apply (match_digits_delimited [] (c :: s)), Hr.
Qed.

Lemma match_frac_app s rest :
  delimited rest = true ->
  match_frac (s ++ rest) = (fst (match_frac s), snd (match_frac s) ++ rest).
Proof.
  intros Hr. destruct s as [|p [|d s]].
  - apply match_frac_delimited, Hr.
  - cbn [app]. destruct rest as [|c r]; [reflexivity|].
    cbn [match_frac]. pose proof (delimited_not_digit _ Hr) as Hd.
    cbn beta iota in Hd. rewrite Hd, andb_false_r. reflexivity.
  - cbn [app match_frac]. destruct ((p =? 46) && is_digit d); [|reflexivity].
    rewrite span_digits_delimited by exact Hr.
    destruct (span_digits s). reflexivity.
Qed.

Lemma match_exp_app s rest :
  delimited rest = true ->
  match_exp (s ++ rest) = (fst (match_exp s), snd (match_exp s) ++ rest).
Proof.
  intros Hr. destruct s as [|e s]; [apply match_exp_delimited, Hr|].
  cbn [app match_exp]. destruct ((e =? 101) || (e =? 69)); [|reflexivity].
  destruct s as [|c s].
  - cbn [app span_digits]. destruct rest as [|c r]; [reflexivity|].
    pose proof (delimited_not_digit _ Hr) as Hd. cbn beta iota in Hd.
    apply delimited_head in Hr.
    replace ((c =? 43) || (c =? 45)) with false
      by (destruct Hr as [-> | [-> | ->]]; reflexivity).
    cbn [span_digits]. rewrite Hd. reflexivity.
  - cbn [app]. destruct ((c =? 43) || (c =? 45)).
    + rewrite span_digits_delimited by exact Hr.
      destruct (span_digits s) as [[|d ds] r2]; reflexivity.
    + change (c :: s ++ rest) with ((c :: s) ++ rest).
      rewrite (span_digits_delimited (c :: s)) by exact Hr.
      destruct (span_digits (c :: s)) as [[|d ds] r2]; reflexivity.
Qed.

Lemma match_number_delimited s rest :
  delimited rest = true ->
  match_number (s ++ rest)
  = match match_number s with
    | Some (v, r) => Some (v, r ++ rest)
    | None => None
    end.
Proof.
  intros Hr. unfold match_number. rewrite match_integer_delimited by exact Hr.
  destruct (match_integer s) as [[integer s1]|]; [|reflexivity].
  rewrite match_frac_app by exact Hr. destruct (match_frac s1) as [frac s2].
  cbn [fst snd]. rewrite match_exp_app by exact Hr.
  destruct (match_exp s2) as [exp s3]. cbn [fst snd].
  destruct frac, exp; reflexivity.
Qed.

(** A number starts with a minus sign or a digit. *)
Lemma match_number_head s v r :
  match_number s = Some (v, r) ->
  exists c s', s = c :: s' /\ (c = 45 \/ 48 <= c <= 57).
Proof.
  unfold match_number, match_integer, match_sign.
  destruct s as [|c s']; [discriminate|]. intros H. exists c, s'.
  split; [reflexivity|].
  destruct (Z.eqb_spec c 45) as [-> | N]; [left; reflexivity|]. right.
  unfold match_digits in H.
  destruct (Z.eqb_spec c 48) as [-> | N0]; [lia|].
  destruct (is_digit c) eqn:Hd; [apply is_digit_true, Hd | discriminate H].
Qed.

(** ** [dict(pairs)] on distinct keys *)

Lemma str_eqb_eq a : forall b, str_eqb a b = true <-> a = b.
Proof.
  induction a as [|x a IH]; intros [|y b]; cbn; try (split; congruence).
  rewrite andb_true_iff, Z.eqb_eq, IH. split; [intros [-> ->]; reflexivity|].
  intros [= -> ->]. split; reflexivity.
Qed.

Lemma str_eqb_refl a : str_eqb a a = true.
Proof. apply str_eqb_eq. reflexivity. Qed.

Lemma str_eqb_sym a b : str_eqb a b = str_eqb b a.
Proof.
  destruct (str_eqb a b) eqn:E1, (str_eqb b a) eqn:E2; try reflexivity.
  - apply str_eqb_eq in E1. subst. rewrite str_eqb_refl in E2. discriminate.
  - apply str_eqb_eq in E2. subst. rewrite str_eqb_refl in E1. discriminate.
Qed.

Lemma dict_set_fresh k v d :
  existsb (str_eqb k) (map fst d) = false -> dict_set k v d = d ++ [(k, v)].
Proof.
  induction d as [|[k' v'] d IH]; intros H; [reflexivity|].
  cbn in H. apply orb_false_iff in H as [H1 H2].
  cbn. rewrite H1, IH by exact H2. reflexivity.
Qed.

Lemma existsb_app_false {A} (p : A -> bool) l1 l2 :
  existsb p (l1 ++ l2) = false <-> existsb p l1 = false /\ existsb p l2 = false.
Proof. rewrite existsb_app. apply orb_false_iff. Qed.

Lemma dict_of_pairs_distinct pairs : forall acc,
  distinct (map fst pairs) = true ->
  forallb (fun k => negb (existsb (str_eqb k) (map fst acc))) (map fst pairs) = true ->
  fold_left (fun d kv => dict_set (fst kv) (snd kv) d) pairs acc = acc ++ pairs.
Proof.
  induction pairs as [|[k v] pairs IH]; intros acc Hd Hf.
  - cbn. rewrite app_nil_r. reflexivity.
  - cbn [map fst distinct forallb] in Hd, Hf.
    apply andb_true_iff in Hd as [Hk Hd]. apply andb_true_iff in Hf as [Hka Hf].
    apply negb_true_iff in Hk, Hka.
    cbn [fold_left fst snd]. rewrite dict_set_fresh by exact Hka.
    rewrite IH; [rewrite <- app_assoc; reflexivity | exact Hd |].
    apply forallb_forall. intros k' Hin. apply negb_true_iff.
    rewrite map_app. apply existsb_app_false. split.
    + rewrite forallb_forall in Hf. apply negb_true_iff, Hf, Hin.
    + cbn. rewrite orb_false_r.
      destruct (str_eqb k' k) eqn:E; [|reflexivity].
      apply str_eqb_eq in E. subst k'.
      assert (existsb (str_eqb k) (map fst pairs) = true) as Hc.
      { apply existsb_exists. exists k. split; [exact Hin | apply str_eqb_refl]. }
      congruence.
Qed.

Lemma dict_of_pairs_id d : distinct (map fst d) = true -> dict_of_pairs d = d.
Proof.
  intros H. unfold dict_of_pairs. rewrite dict_of_pairs_distinct; [reflexivity | exact H |].
  apply forallb_forall. reflexivity.
Qed.

(** ** The text of a float *)

Lemma float_text_cases t :
  float_text t = true ->
  match_number t = Some (JFloat t, []) \/ t = lit "Infinity" \/ t = lit "-Infinity".
Proof.
  unfold float_text. intros H.
  assert (Hc : str_eqb t (lit "Infinity") || str_eqb t (lit "-Infinity") = true ->
               t = lit "Infinity" \/ t = lit "-Infinity").
  { rewrite orb_true_iff, !str_eqb_eq. tauto. }
  destruct (match_number t) as [[v r]|]; [|right; exact (Hc H)].
  destruct v as [| b | n | t' | x | l | d]; try (right; exact (Hc H)).
  destruct r; [|right; exact (Hc H)].
  apply str_eqb_eq in H. subst t'. left. reflexivity.
Qed.

Lemma float_text_head t :
  float_text t = true -> exists c r, t = c :: r /\ value_start c = true.
Proof.
  intros H. apply float_text_cases in H as [H | [-> | ->]].
  - apply match_number_head in H as (c & r & -> & Hc). exists c, r.
    split; [reflexivity|]. unfold value_start.
    rewrite !orb_true_iff, !Z.eqb_eq, is_digit_true. tauto.
  - eexists; eexists; split; reflexivity.
  - eexists; eexists; split; reflexivity.
Qed.

(** ** [scan_once] on the text of [dumps] *)

Lemma value_start_cases c :
  value_start c = true ->
  c = 34 \/ c = 123 \/ c = 91 \/ c = 110 \/ c = 116 \/ c = 102 \/ c = 45
  \/ c = 73 \/ 48 <= c <= 57.
Proof.
  unfold value_start. rewrite !orb_true_iff, !Z.eqb_eq, is_digit_true. tauto.
Qed.

Lemma value_start_not_ws c : value_start c = true -> is_ws c = false.
Proof.
  intros H. apply value_start_cases in H. unfold is_ws.
  rewrite !orb_false_iff, !Z.eqb_neq. lia.
Qed.

Lemma dumps_head v :
  stable v = true -> exists c r, dumps v = c :: r /\ value_start c = true.
Proof.
  destruct v as [| [|] | n | t | s | l | d]; cbn [stable]; intros H;
    try (eexists; eexists; split; [reflexivity | reflexivity]).
  2:{ apply float_text_head, H. }
  unfold dumps, int_repr. destruct (Z.ltb_spec n 0) as [Hn | Hn].
  - eexists; eexists; split; reflexivity.
  - destruct (nat_repr_spec n Hn) as (Hd & _ & c & r & Hc & _).
    rewrite Hc in *. exists c, r. split; [reflexivity|].
    cbn [forallb] in Hd. apply andb_true_iff in Hd as [Hd _].
    unfold value_start. rewrite Hd. rewrite !orb_true_r. reflexivity.
Qed.

Lemma skip_ws_dumps v rest :
  stable v = true -> skip_ws (dumps v ++ rest) = dumps v ++ rest.
Proof.
  intros H. destruct (dumps_head v H) as (c & r & -> & Hc).
  cbn [app skip_ws]. rewrite (value_start_not_ws c Hc). reflexivity.
Qed.

Lemma scan_once_string f r x rest :
  scanstring r = Some (x, rest) -> scan_once (S f) (34 :: r) = POk (JStr x) rest.
Proof. intros H. cbn [scan_once]. change (34 =? 34) with true. cbv iota. rewrite H. reflexivity. Qed.

Lemma scan_once_array f r :
  scan_once (S f) (91 :: r) = JSONArray (scan_once f) f r.
Proof. reflexivity. Qed.

Lemma scan_once_object f r :
  scan_once (S f) (123 :: r) = JSONObject (scan_once f) f r.
Proof. reflexivity. Qed.

Lemma scan_once_number f s v rest :
  match s with c :: _ => c <> 34 /\ c <> 123 /\ c <> 91 | [] => True end ->
  match_number s = Some (v, rest) -> scan_once (S f) s = POk v rest.
Proof.
  destruct s as [|c r]; [discriminate|]. intros (H1 & H2 & H3) H.
  cbn [scan_once].
  destruct (Z.eqb_spec c 34); [contradiction|].
  destruct (Z.eqb_spec c 123); [contradiction|].
  destruct (Z.eqb_spec c 91); [contradiction|].
  rewrite H. reflexivity.
Qed.

Lemma scan_once_null f rest : scan_once (S f) (lit "null" ++ rest) = POk JNull rest.
Proof. reflexivity. Qed.

Lemma scan_once_true f rest : scan_once (S f) (lit "true" ++ rest) = POk (JBool true) rest.
Proof. reflexivity. Qed.

Lemma scan_once_false f rest : scan_once (S f) (lit "false" ++ rest) = POk (JBool false) rest.
Proof. reflexivity. Qed.

Lemma scan_once_int f n rest :
  delimited rest = true -> scan_once (S f) (int_repr n ++ rest) = POk (JInt n) rest.
Proof.
  intros Hr. apply scan_once_number; [|apply match_number_int, Hr].
  destruct (dumps_head (JInt n) eq_refl) as (c & r & Hc & Hs).
  cbn [dumps] in Hc. rewrite Hc. cbn [app].
  unfold int_repr in Hc. destruct (Z.ltb_spec n 0).
  - injection Hc as <- _. lia.
  - destruct (nat_repr_spec n) as (Hd & _ & c' & r' & Hc' & _); [lia|].
    rewrite Hc' in Hc, Hd. injection Hc as -> _.
    cbn [forallb] in Hd. apply andb_true_iff in Hd as [Hd _].
    apply is_digit_true in Hd. lia.
Qed.

Lemma scan_once_float f t rest :
  float_text t = true -> delimited rest = true ->
  scan_once (S f) (t ++ rest) = POk (JFloat t) rest.
Proof.
  intros Ht Hr. apply float_text_cases in Ht as [Hn | [-> | ->]];
    [|reflexivity..].
  apply scan_once_number.
  - apply match_number_head in Hn as (c & r & -> & Hc). cbn [app]. lia.
  - rewrite match_number_delimited, Hn by exact Hr. reflexivity.
Qed.

Lemma join_cons sep p ps :
  join sep (p :: ps) = p ++ flat_map (fun q => sep ++ q) ps.
Proof.
  revert p. induction ps as [|q ps IH]; intros p.
  - cbn. rewrite app_nil_r. reflexivity.
  - change (join sep (p :: q :: ps)) with (p ++ sep ++ join sep (q :: ps)).
    rewrite IH. cbn [flat_map]. rewrite <- app_assoc. reflexivity.
Qed.

Lemma join_length_in sep ps p :
  In p ps -> (length p <= length (join sep ps))%nat.
Proof.
  revert p. induction ps as [|q ps IH]; intros p Hin; [destruct Hin|].
  destruct Hin as [-> | Hin].
  - rewrite join_cons, length_app. lia.
  - destruct ps as [|q' ps]; [destruct Hin|].
    specialize (IH p Hin).
    change (join sep (q :: q' :: ps)) with (q ++ sep ++ join sep (q' :: ps)).
    rewrite !length_app. lia.
Qed.

Lemma join_length_count sep ps :
  (1 <= length sep)%nat -> (length ps <= S (length (join sep ps)))%nat.
Proof.
  intros Hs. induction ps as [|q ps IH]; [cbn; lia|].
  destruct ps as [|q' ps]; [cbn; lia|].
  change (join sep (q :: q' :: ps)) with (q ++ sep ++ join sep (q' :: ps)).
  rewrite !length_app. cbn [length] in *. lia.
Qed.

Lemma array_loop_dumps scan l : forall x values fuel rest,
  Forall (reads scan) (x :: l) ->
  (length (x :: l) <= fuel)%nat ->
  array_loop scan fuel
    (dumps x ++ flat_map (fun q => lit ", " ++ q) (map dumps l) ++ 93 :: rest)
    values
  = POk (JList (values ++ x :: l)) rest.
Proof.
  induction l as [|y l IH]; intros x values fuel rest Hall Hfuel;
    (destruct fuel as [|fuel]; [cbn in Hfuel; lia|]);
    inversion Hall as [|? ? [Hp Hx] Hl]; subst; cbn [array_loop].
  - cbn [map flat_map app]. rewrite Hx by reflexivity.
    reflexivity.
  - cbn [map flat_map]. rewrite <- !app_assoc.
    change (lit ", " ++ dumps y ++ ?t) with (44 :: 32 :: dumps y ++ t).
    rewrite Hx by reflexivity.
    change (skip_ws (44 :: 32 :: ?t)) with (44 :: 32 :: t). cbv iota.
    change (44 =? 93) with false. change (44 =? 44) with true. cbv iota.
    change (skip_ws (32 :: ?t)) with (skip_ws t).
    inversion Hl as [|? ? [Hpy Hy] Hl']; subst.
    rewrite skip_ws_dumps by exact Hpy.
    rewrite IH; [rewrite <- app_assoc; reflexivity | exact Hl |].
    cbn [length] in *. lia.
Qed.

Lemma JSONArray_dumps scan l fuel rest :
  Forall (reads scan) l -> (length l <= fuel)%nat ->
  JSONArray scan fuel (join (lit ", ") (map dumps l) ++ 93 :: rest)
  = POk (JList l) rest.
Proof.
  intros Hall Hfuel. destruct l as [|x l]; [reflexivity|].
  cbn [map]. rewrite join_cons, <- app_assoc.
  unfold JSONArray.
  inversion Hall as [|? ? [Hp Hx] Hl]; subst.
  rewrite skip_ws_dumps by exact Hp.
  destruct (dumps_head x Hp) as (c & r & Hc & Hs).
  rewrite Hc at 1. cbn [app].
  apply value_start_cases in Hs.
  destruct (Z.eqb_spec c 93); [lia|].
  change (c :: r ++ ?t) with ((c :: r) ++ t). rewrite <- Hc.
  apply (array_loop_dumps scan l x []); assumption.
Qed.

Lemma object_loop_dumps scan d : forall k v pairs fuel rest,
  Forall (reads_item scan) ((k, v) :: d) ->
  (length ((k, v) :: d) <= fuel)%nat ->
  object_loop scan fuel
    (flat_map escape_char k ++ 34 :: lit ": " ++ dumps v
       ++ flat_map (fun q => lit ", " ++ q) (map item d) ++ 125 :: rest)
    pairs
  = POk (JDict (dict_of_pairs (pairs ++ (k, v) :: d))) rest.
Proof.
  induction d as [|[k' v'] d IH]; intros k v pairs fuel rest Hall Hfuel;
    (destruct fuel as [|fuel]; [cbn in Hfuel; lia|]);
    inversion Hall as [|? ? [Hk [Hp Hv]] Hd]; subst; cbn [fst snd] in *;
    cbn [object_loop]; rewrite scanstring_stable by exact Hk;
    change (lit ": " ++ dumps v ++ ?t) with (58 :: 32 :: dumps v ++ t);
    change (skip_ws (58 :: 32 :: ?t)) with (58 :: 32 :: t); cbv iota;
    change (58 =? 58) with true; cbv iota;
    change (skip_ws (32 :: ?t)) with (skip_ws t);
    rewrite skip_ws_dumps by exact Hp.
  - cbn [map flat_map app]. rewrite Hv by reflexivity. reflexivity.
  - cbn [map flat_map]. rewrite <- !app_assoc.
    unfold item at 1, encode_basestring_ascii. cbn [fst snd].
    rewrite <- !app_assoc.
    change (lit ", " ++ [34] ++ ?t) with (44 :: 32 :: 34 :: t).
    rewrite Hv by reflexivity.
    change (skip_ws (44 :: 32 :: 34 :: ?t)) with (44 :: 32 :: 34 :: t). cbv iota.
    change (44 =? 125) with false. change (44 =? 44) with true. cbv iota.
    change (skip_ws (32 :: 34 :: ?t)) with (34 :: t). cbv iota.
    change (34 =? 34) with true. cbv iota.
    change ([34] ++ ?t) with (34 :: t).
    rewrite IH; [rewrite <- app_assoc; reflexivity | exact Hd |].
    cbn [length] in *. lia.
Qed.

Lemma JSONObject_dumps scan d fuel rest :
  distinct (map fst d) = true ->
  Forall (reads_item scan) d -> (length d <= fuel)%nat ->
  JSONObject scan fuel (join (lit ", ") (map item d) ++ 125 :: rest)
  = POk (JDict d) rest.
Proof.
  intros Hdist Hall Hfuel. destruct d as [|[k v] d]; [reflexivity|].
  cbn [map]. rewrite join_cons, <- app_assoc.
  unfold item at 1, encode_basestring_ascii. cbn [fst snd].
  rewrite <- !app_assoc. cbn [app].
  unfold JSONObject. change (skip_ws (34 :: ?t)) with (34 :: t). cbv iota.
  change (34 =? 125) with false. change (34 =? 34) with true. cbv iota.
  rewrite (object_loop_dumps scan d k v []) by assumption.
  cbn [app]. rewrite dict_of_pairs_id by exact Hdist. reflexivity.
Qed.

Lemma dumps_list_length l :
  length (dumps (JList l)) = S (S (length (join (lit ", ") (map dumps l)))).
Proof.
  change (dumps (JList l)) with ([91] ++ join (lit ", ") (map dumps l) ++ [93]).
  rewrite !length_app. cbn [length]. lia.
Qed.

Lemma dumps_dict_length d :
  length (dumps (JDict d)) = S (S (length (join (lit ", ") (map item d)))).
Proof.
  change (dumps (JDict d)) with ([123] ++ join (lit ", ") (map item d) ++ [125]).
  rewrite !length_app. cbn [length]. lia.
Qed.

(** [scan_once] reads back what [dumps] wrote, given as much fuel as the
    text has characters. *)
Lemma scan_once_dumps v :
  stable v = true ->
  forall fuel rest,
    (length (dumps v) <= fuel)%nat -> delimited rest = true ->
    scan_once fuel (dumps v ++ rest) = POk v rest.
Proof.
  induction v as [| b | n | t | s | l IH | d IH] using json_ind';
    intros Hp fuel rest Hf Hr;
    (destruct fuel as [|fuel];
     [destruct (dumps_head _ Hp) as (c & r & Hc & _); rewrite Hc in Hf;
      cbn in Hf; lia|]).
  - apply scan_once_null.
  - destruct b; [apply scan_once_true | apply scan_once_false].
  - apply scan_once_int, Hr.
  - apply scan_once_float; assumption.
  - cbn [dumps]. unfold encode_basestring_ascii. rewrite <- !app_assoc.
    cbn [app]. apply scan_once_string, scanstring_stable, Hp.
  - rewrite dumps_list_length in Hf.
    change (dumps (JList l)) with ([91] ++ join (lit ", ") (map dumps l) ++ [93]).
    rewrite <- !app_assoc. cbn [app].
    rewrite scan_once_array. cbn [stable] in Hp.
    apply JSONArray_dumps.
    + apply Forall_forall. intros x Hin. rewrite Forall_forall in IH.
      rewrite forallb_forall in Hp. split; [apply Hp, Hin|].
      intros rest' Hr'. apply IH; [exact Hin | apply Hp, Hin | | exact Hr'].
      pose proof (join_length_in (lit ", ") (map dumps l) (dumps x)
                    (in_map dumps l x Hin)). lia.
    + assert (Hsep : (1 <= length (lit ", "))%nat) by (cbn; lia).
      pose proof (join_length_count (lit ", ") (map dumps l) Hsep) as Hc.
      rewrite length_map in Hc. lia.
  - rewrite dumps_dict_length in Hf.
    change (dumps (JDict d)) with ([123] ++ join (lit ", ") (map item d) ++ [125]).
    rewrite <- !app_assoc. cbn [app].
    rewrite scan_once_object. cbn [stable] in Hp.
    apply andb_true_iff in Hp as [Hdist Hall].
    apply (JSONObject_dumps (scan_once fuel) d fuel rest Hdist).
    + apply Forall_forall. intros kv Hin. rewrite Forall_forall in IH.
      rewrite forallb_forall in Hall. specialize (Hall kv Hin).
      apply andb_true_iff in Hall as [Hk Hv].
      split; [exact Hk|]. split; [exact Hv|].
      intros rest' Hr'. apply IH; [exact Hin | exact Hv | | exact Hr'].
      pose proof (join_length_in (lit ", ") (map item d) (item kv)
                    (in_map item d kv Hin)) as Hl.
      unfold item at 1 in Hl. rewrite !length_app in Hl. lia.
    + assert (Hsep : (1 <= length (lit ", "))%nat) by (cbn; lia).
      pose proof (join_length_count (lit ", ") (map item d) Hsep) as Hc.
      rewrite length_map in Hc. lia.
Qed.

(** What is [plain] is [stable]. *)
Lemma plain_stable v : plain v = true -> stable v = true.
Proof.
  induction v as [| b | n | t | s | l IH | d IH] using json_ind';
    cbn [plain stable]; intros Hp; try reflexivity.
  - discriminate Hp.
  - apply scalar_stable_str, Hp.
  - rewrite forallb_forall in *. rewrite Forall_forall in IH.
    intros x Hin. apply IH; [exact Hin | apply Hp, Hin].
  - apply andb_true_iff in Hp as [Hd Hp]. rewrite Hd. cbn [andb].
    rewrite forallb_forall in *. rewrite Forall_forall in IH.
    intros kv Hin. specialize (Hp kv Hin). cbv beta in Hp |- *.
    apply andb_true_iff in Hp as [Hk Hv].
    apply andb_true_iff. split; [apply scalar_stable_str, Hk | apply IH; assumption].
Qed.

(** [json.loads(json.dumps(v)) == v] *)
Lemma loads_dumps_stable v : stable v = true -> loads (dumps v) = Ok v.
Proof.
  intros Hp. unfold loads.
  destruct (dumps_head v Hp) as (c & r & Hc & Hs).
  assert (Hbom : strip_prefix [65279] (dumps v) = None).
  { rewrite Hc. cbn [strip_prefix]. apply value_start_cases in Hs.
    destruct (Z.eqb_spec 65279 c); [lia | reflexivity]. }
  rewrite Hbom.
  rewrite <- (app_nil_r (dumps v)) at 2.
  rewrite skip_ws_dumps by exact Hp.
  rewrite scan_once_dumps; [reflexivity | exact Hp | | reflexivity].
  lia.
Qed.

Lemma loads_dumps v : plain v = true -> loads (dumps v) = Ok v.
Proof. intros Hp. apply loads_dumps_stable, plain_stable, Hp. Qed.

(** ** ASCII text through the codec *)

Lemma is_ascii_true c : is_ascii c = true <-> 0 <= c < 128.
Proof. unfold is_ascii. rewrite andb_true_iff, Z.leb_le, Z.ltb_lt. tauto. Qed.

Lemma hex_digit_ascii d : 0 <= d < 16 -> is_ascii (hex_digit d) = true.
Proof.
  intros H. apply is_ascii_true. unfold hex_digit.
  destruct (Z.ltb_spec d 10); lia.
Qed.

Lemma u_escape_ascii n : forallb is_ascii (u_escape n) = true.
Proof.
  unfold u_escape. cbn [forallb].
  rewrite !hex_digit_ascii by (apply Z.mod_pos_bound; lia). reflexivity.
Qed.

Lemma escape_char_ascii c : forallb is_ascii (escape_char c) = true.
Proof.
  unfold escape_char.
  destruct ((32 <=? c) && (c <=? 126) && negb (c =? 34) && negb (c =? 92)) eqn:Hp.
  { rewrite !andb_true_iff, !Z.leb_le in Hp. cbn [forallb].
    rewrite andb_true_r. apply is_ascii_true. lia. }
  repeat match goal with
         | |- context [if ?b then _ else _] => destruct b; [reflexivity|]
         end.
  destruct (c <? 65536); [apply u_escape_ascii|].
  cbv zeta. rewrite forallb_app, !u_escape_ascii. reflexivity.
Qed.

Lemma string_ascii s : forallb is_ascii (encode_basestring_ascii s) = true.
Proof.
  unfold encode_basestring_ascii. rewrite !forallb_app.
  replace (forallb is_ascii (flat_map escape_char s)) with true; [reflexivity|].
  symmetry. induction s as [|c s IH]; [reflexivity|].
  cbn [flat_map]. rewrite forallb_app, escape_char_ascii, IH. reflexivity.
Qed.

Lemma int_repr_ascii n : forallb is_ascii (int_repr n) = true.
Proof.
  assert (Hd : forall l, forallb is_digit l = true -> forallb is_ascii l = true).
  { intros l. rewrite !forallb_forall. intros H c Hin.
    specialize (H c Hin). apply is_digit_true in H. apply is_ascii_true. lia. }
  unfold int_repr. destruct (Z.ltb_spec n 0).
  - cbn [forallb]. rewrite Hd; [reflexivity|]. apply nat_repr_spec. lia.
  - apply Hd, nat_repr_spec. lia.
Qed.

Lemma join_forallb (p : Z -> bool) sep ps :
  forallb p sep = true -> Forall (fun q => forallb p q = true) ps ->
  forallb p (join sep ps) = true.
Proof.
  intros Hs H. induction H as [|q ps Hq Hps IH]; [reflexivity|].
  destruct ps as [|q' ps]; [exact Hq|].
  change (join sep (q :: q' :: ps)) with (q ++ sep ++ join sep (q' :: ps)).
  rewrite !forallb_app, Hq, Hs, IH. reflexivity.
Qed.

(** The text of a number is ASCII. *)
Lemma digits_ascii l : forallb is_digit l = true -> forallb is_ascii l = true.
Proof.
  rewrite !forallb_forall. intros H c Hin.
  specialize (H c Hin). apply is_digit_true in H. apply is_ascii_true. lia.
Qed.

Lemma span_digits_digits s : forallb is_digit (fst (span_digits s)) = true.
Proof.
  induction s as [|c s IH]; [reflexivity|]. cbn [span_digits].
  destruct (is_digit c) eqn:Hc; [|reflexivity].
  destruct (span_digits s). cbn [fst forallb] in *. rewrite Hc, IH. reflexivity.
Qed.

Lemma match_digits_ascii sign s t r :
  forallb is_ascii sign = true ->
  match_digits sign s = Some (t, r) -> forallb is_ascii t = true.
Proof.
  intros Hs. destruct s as [|c s]; [discriminate|]. unfold match_digits.
  destruct (c =? 48). { intros [= <- _]. rewrite forallb_app, Hs. reflexivity. }
  destruct (is_digit c) eqn:Hc; [|discriminate].
  pose proof (span_digits_digits s) as Hd. destruct (span_digits s) as [ds r'].
  intros [= <- _]. rewrite forallb_app, Hs. cbn [fst forallb andb] in *.
  rewrite (digits_ascii _ Hd), andb_true_r.
  apply is_digit_true in Hc. apply is_ascii_true. lia.
Qed.

Lemma match_integer_ascii s t r :
  match_integer s = Some (t, r) -> forallb is_ascii t = true.
Proof.
  unfold match_integer, match_sign. destruct s as [|c s]; [discriminate|].
  destruct (c =? 45); apply match_digits_ascii; reflexivity.
Qed.

Lemma match_frac_ascii s : forallb is_ascii (fst (match_frac s)) = true.
Proof.
  destruct s as [|p [|d s]]; try reflexivity. cbn [match_frac].
  destruct (Z.eqb_spec p 46) as [-> | N]; [|reflexivity]. cbn [andb].
  destruct (is_digit d) eqn:Hd; [|reflexivity].
  pose proof (span_digits_digits s) as Hs. destruct (span_digits s) as [ds r].
  cbn [fst forallb] in *. rewrite (digits_ascii _ Hs), andb_true_r.
  apply is_digit_true in Hd. apply andb_true_iff. split; [reflexivity|].
  apply is_ascii_true. lia.
Qed.

Lemma match_exp_ascii s : forallb is_ascii (fst (match_exp s)) = true.
Proof.
  destruct s as [|e s]; [reflexivity|]. cbn [match_exp].
  destruct ((e =? 101) || (e =? 69)) eqn:He; [|reflexivity].
  assert (Hea : is_ascii e = true).
  { apply is_ascii_true. rewrite orb_true_iff, !Z.eqb_eq in He. lia. }
  destruct s as [|c s]; [reflexivity|].
  destruct ((c =? 43) || (c =? 45)) eqn:Hc.
  - assert (Hca : is_ascii c = true).
    { apply is_ascii_true. rewrite orb_true_iff, !Z.eqb_eq in Hc. lia. }
    pose proof (span_digits_digits s) as Hs.
    destruct (span_digits s) as [[|d ds] r]; [reflexivity|].
    cbn [fst] in *. cbn [app forallb]. rewrite Hea, Hca.
    apply (digits_ascii _ Hs).
  - pose proof (span_digits_digits (c :: s)) as Hs.
    destruct (span_digits (c :: s)) as [[|d ds] r]; [reflexivity|].
    cbn [fst] in *. cbn [app forallb]. rewrite Hea.
    apply (digits_ascii _ Hs).
Qed.

Lemma float_text_ascii t : float_text t = true -> forallb is_ascii t = true.
Proof.
  intros H. apply float_text_cases in H as [H | [-> | ->]]; [|reflexivity..].
  unfold match_number in H.
  destruct (match_integer t) as [[integer s1]|] eqn:Hi; [|discriminate].
  apply match_integer_ascii in Hi.
  pose proof (match_frac_ascii s1) as Hf. destruct (match_frac s1) as [frac s2].
  pose proof (match_exp_ascii s2) as He. destruct (match_exp s2) as [exp s3].
  cbn [fst] in *.
  assert (Ha : forallb is_ascii (integer ++ frac ++ exp) = true)
    by (rewrite !forallb_app, Hi, Hf, He; reflexivity).
  destruct frac, exp; [discriminate H|..]; injection H as H _;
    rewrite <- H; exact Ha.
Qed.

(** With [ensure_ascii] the text of [dumps] is ASCII. *)
Lemma dumps_ascii_stable v : stable v = true -> forallb is_ascii (dumps v) = true.
Proof.
  induction v as [| b | n | t | s | l IH | d IH] using json_ind'; intros Hp.
  - reflexivity.
  - destruct b; reflexivity.
  - apply int_repr_ascii.
  - apply float_text_ascii, Hp.
  - apply string_ascii.
  - change (dumps (JList l)) with ([91] ++ join (lit ", ") (map dumps l) ++ [93]).
    rewrite !forallb_app, join_forallb; [reflexivity..|].
    cbn [stable] in Hp. rewrite forallb_forall in Hp.
    apply Forall_map, Forall_forall. intros x Hin.
    rewrite Forall_forall in IH. apply IH; [exact Hin | apply Hp, Hin].
  - change (dumps (JDict d)) with ([123] ++ join (lit ", ") (map item d) ++ [125]).
    rewrite !forallb_app, join_forallb; [reflexivity..|].
    cbn [stable] in Hp. apply andb_true_iff in Hp as [_ Hp].
    rewrite forallb_forall in Hp.
    apply Forall_map, Forall_forall. intros kv Hin.
    rewrite Forall_forall in IH. specialize (Hp kv Hin).
    apply andb_true_iff in Hp as [_ Hv].
    unfold item. rewrite !forallb_app, string_ascii, (IH kv Hin Hv). reflexivity.
Qed.

Lemma dumps_ascii v : plain v = true -> forallb is_ascii (dumps v) = true.
Proof. intros Hp. apply dumps_ascii_stable, plain_stable, Hp. Qed.

(** The codec on ASCII text: one byte per character, both ways. *)
Lemma utf8_encode_ascii s :
  forallb is_ascii s = true -> Utf8.encode s = Ok (map byte.of_Z s).
Proof.
  intros H. unfold Utf8.encode.
  assert (Hm : list_map Utf8.encode_char s = Ok (map (fun c => [byte.of_Z c]) s)).
  { induction s as [|c s IH]; [reflexivity|].
    cbn [forallb] in H. apply andb_true_iff in H as [Hc Hs].
    apply is_ascii_true in Hc. cbn [list_map map]. unfold Utf8.encode_char at 1.
    destruct (Z.ltb_spec c 128); [|lia]. cbn [bind]. rewrite IH by exact Hs.
    reflexivity. }
  rewrite Hm. cbn [bind]. f_equal.
  clear. induction s as [|c s IH]; [reflexivity|]. cbn. rewrite IH. reflexivity.
Qed.

Lemma utf8_decode_ascii s :
  forallb is_ascii s = true -> Utf8.decode (map byte.of_Z s) = Ok s.
Proof.
  induction s as [|c s IH]; intros H; [reflexivity|].
  cbn [forallb] in H. apply andb_true_iff in H as [Hc Hs].
  apply is_ascii_true in Hc. cbn [map Utf8.decode]. cbv zeta.
  rewrite byte.unsigned_of_Z. unfold byte.wrap.
  rewrite Z.mod_small by lia.
  destruct (Z.ltb_spec c 128); [|lia]. rewrite IH by exact Hs. reflexivity.
Qed.

(** ** The fuel of [scan_once] *)

Lemma skip_ws_length s : (length (skip_ws s) <= length s)%nat.
Proof.
  induction s as [|c s IH]; [reflexivity|].
  cbn [skip_ws]. destruct (is_ws c); cbn [length]; lia.
Qed.

Lemma push_some c o x r :
  push c o = Some (x, r) -> exists x', o = Some (x', r).
Proof.
  destruct o as [[x' r']|]; [|discriminate]. cbn. intros [= _ <-]. eauto.
Qed.

Lemma scanstring_length n : forall s x r,
  (length s <= n)%nat -> scanstring s = Some (x, r) -> (length r < length s)%nat.
Proof.
  induction n as [|n IH]; intros s x r Hn H.
  - destruct s; [discriminate H | cbn in Hn; lia].
  - assert (Hrec : forall c t, (length t <= n)%nat ->
              push c (scanstring t) = Some (x, r) -> (length r < length t)%nat).
    { intros c t Ht Hp. apply push_some in Hp as [x' Hp]. eapply IH; eassumption. }
    destruct s as [|c r0]; [discriminate H|]. cbn [scanstring] in H. cbn [length] in *.
    destruct (c =? 34). { injection H as _ <-. lia. }
    destruct (c =? 92).
    + destruct r0 as [|e r1]; [discriminate H|]. cbn [length] in *.
      destruct (e =? 117).
      * destruct r1 as [|a [|b [|c1 [|d r2]]]]; try discriminate H.
        cbn [length] in *.
        destruct (decode_uXXXX a b c1 d) as [uni|]; [|discriminate H].
        destruct (is_high_surrogate uni).
        -- destruct r2 as [|bs [|u [|a2 [|b2 [|c2 [|d2 r3]]]]]];
             try (apply Hrec in H; cbn [length] in *; lia).
           cbn [length] in *.
           destruct ((bs =? 92) && (u =? 117)).
           ++ destruct (decode_uXXXX a2 b2 c2 d2) as [uni2|]; [|discriminate H].
              destruct (is_low_surrogate uni2);
                apply Hrec in H; cbn [length] in *; lia.
           ++ apply Hrec in H; cbn [length] in *; lia.
        -- apply Hrec in H; lia.
      * destruct (backslash e); [|discriminate H]. apply Hrec in H; lia.
    + destruct (c <? 32); [discriminate H|]. apply Hrec in H; lia.
Qed.

Lemma span_digits_length s : (length (snd (span_digits s)) <= length s)%nat.
Proof.
  induction s as [|c s IH]; [reflexivity|].
  cbn [span_digits]. destruct (is_digit c); [|reflexivity].
  destruct (span_digits s). cbn [snd length] in *. lia.
Qed.

Lemma match_digits_length sign s t r :
  match_digits sign s = Some (t, r) -> (length r < length s)%nat.
Proof.
  destruct s as [|c s']; [discriminate|]. unfold match_digits.
  destruct (c =? 48). { intros [= _ <-]. cbn. lia. }
  destruct (is_digit c); [|discriminate].
  pose proof (span_digits_length s') as Hl. destruct (span_digits s').
  intros [= _ <-]. cbn [snd length] in *. lia.
Qed.

Lemma match_integer_length s t r :
  match_integer s = Some (t, r) -> (length r < length s)%nat.
Proof.
  unfold match_integer, match_sign.
  destruct s as [|c s']; [discriminate|].
  destruct (c =? 45); intros H; apply match_digits_length in H;
    cbn [length] in *; lia.
Qed.

Lemma match_frac_length s : (length (snd (match_frac s)) <= length s)%nat.
Proof.
  destruct s as [|p [|d r]]; try reflexivity. cbn [match_frac].
  destruct ((p =? 46) && is_digit d); [|reflexivity].
  pose proof (span_digits_length r). destruct (span_digits r).
  cbn [snd length] in *. lia.
Qed.

Lemma match_exp_length s : (length (snd (match_exp s)) <= length s)%nat.
Proof.
  destruct s as [|e r]; [reflexivity|]. cbn [match_exp].
  destruct ((e =? 101) || (e =? 69)); [|reflexivity].
  assert (H : forall r1, (length r1 <= length r)%nat ->
            (length (snd match span_digits r1 with
                         | ([], _) => ([], e :: r)
                         | (d :: ds, r2) => (e :: [] ++ d :: ds, r2)
                         end) <= length (e :: r))%nat).
  { intros r1 Hr1. pose proof (span_digits_length r1) as Hl.
    destruct (span_digits r1) as [[|d ds] r2]; cbn [snd length] in *; lia. }
  destruct r as [|c r']; [reflexivity|].
  destruct ((c =? 43) || (c =? 45)).
  - pose proof (span_digits_length r') as Hl.
    destruct (span_digits r') as [[|d ds] r2]; cbn [snd length] in *; lia.
  - pose proof (span_digits_length (c :: r')) as Hl.
    destruct (span_digits (c :: r')) as [[|d ds] r2]; cbn [snd length] in *; lia.
Qed.

Lemma match_number_length s v r :
  match_number s = Some (v, r) -> (length r < length s)%nat.
Proof.
  unfold match_number.
  destruct (match_integer s) as [[t s1]|] eqn:Hi; [|discriminate].
  apply match_integer_length in Hi.
  pose proof (match_frac_length s1) as Hf. destruct (match_frac s1) as [frac s2].
  pose proof (match_exp_length s2) as He. destruct (match_exp s2) as [exp s3].
  cbn [snd] in *.
  destruct frac, exp; intros [= _ <-]; lia.
Qed.

Lemma strip_prefix_length p : forall s r,
  strip_prefix p s = Some r -> length s = (length p + length r)%nat.
Proof.
  induction p as [|x p IH]; intros s r H.
  - injection H as ->. reflexivity.
  - destruct s as [|y s]; [discriminate H|]. cbn [strip_prefix] in H.
    destruct (x =? y); [|discriminate H]. cbn [length]. rewrite (IH _ _ H). lia.
Qed.

Lemma match_constant_length s v r :
  match_constant constants s = Some (v, r) -> (length r < length s)%nat.
Proof.
  unfold constants. cbn [match_constant].
  repeat match goal with
         | |- context [strip_prefix ?p s] =>
             let E := fresh "E" in
             destruct (strip_prefix p s) eqn:E;
             [apply strip_prefix_length in E; intros [= _ <-];
              cbn in E; lia|]
         end.
  discriminate.
Qed.

Lemma array_loop_fuel n scan :
  productive n scan ->
  forall fuel s values,
    (length s < fuel)%nat -> (fuel <= n)%nat ->
    match array_loop scan fuel s values with
    | POk _ r => (length r < length s)%nat
    | PErr => True
    | PFuel => False
    end.
Proof.
  intros Hscan. induction fuel as [|fuel IH]; intros s values Hs Hn; [lia|].
  cbn [array_loop]. specialize (Hscan s ltac:(lia)).
  destruct (scan s) as [v s1| |]; [|trivial|contradiction].
  pose proof (skip_ws_length s1) as Hw.
  destruct (skip_ws s1) as [|c s2]; [trivial|]. cbn [length] in Hw.
  destruct (c =? 93); [lia|].
  destruct (c =? 44); [|trivial].
  pose proof (skip_ws_length s2) as Hw2.
  specialize (IH (skip_ws s2) (values ++ [v]) ltac:(lia) ltac:(lia)).
  destruct (array_loop scan fuel (skip_ws s2) (values ++ [v])); [lia|trivial|contradiction].
Qed.

Lemma object_loop_fuel n scan :
  productive n scan ->
  forall fuel s pairs,
    (length s < fuel)%nat -> (fuel <= n)%nat ->
    match object_loop scan fuel s pairs with
    | POk _ r => (length r < length s)%nat
    | PErr => True
    | PFuel => False
    end.
Proof.
  intros Hscan. induction fuel as [|fuel IH]; intros s pairs Hs Hn; [lia|].
  cbn [object_loop].
  destruct (scanstring s) as [[key s1]|] eqn:Hk; [|trivial].
  apply (scanstring_length (length s)) in Hk; [|lia].
  pose proof (skip_ws_length s1) as Hw1.
  destruct (skip_ws s1) as [|c s2]; [trivial|]. cbn [length] in Hw1.
  destruct (c =? 58); [|trivial].
  pose proof (skip_ws_length s2) as Hw2.
  specialize (Hscan (skip_ws s2) ltac:(lia)).
  destruct (scan (skip_ws s2)) as [v s3| |]; [|trivial|contradiction].
  pose proof (skip_ws_length s3) as Hw3.
  destruct (skip_ws s3) as [|c' s4]; [trivial|]. cbn [length] in Hw3.
  destruct (c' =? 125); [lia|].
  destruct (c' =? 44); [|trivial].
  pose proof (skip_ws_length s4) as Hw4.
  destruct (skip_ws s4) as [|q s5]; [trivial|]. cbn [length] in Hw4.
  destruct (q =? 34); [|trivial].
  specialize (IH s5 (pairs ++ [(key, v)]) ltac:(lia) ltac:(lia)).
  destruct (object_loop scan fuel s5 (pairs ++ [(key, v)])); [lia|trivial|contradiction].
Qed.

(** More fuel than characters is always enough for [scan_once]. *)
Lemma scan_once_fuel fuel : productive fuel (scan_once fuel).
Proof.
  induction fuel as [|fuel IH]; intros s Hs; [lia|].
  cbn [scan_once]. destruct s as [|c r]; [trivial|]. cbn [length] in Hs.
  destruct (c =? 34).
  { destruct (scanstring r) as [[x rest]|] eqn:Hx; [|trivial].
    apply (scanstring_length (length r)) in Hx; [|lia]. cbn [length]. lia. }
  destruct (c =? 123).
  { unfold JSONObject. pose proof (skip_ws_length r) as Hw.
    destruct (skip_ws r) as [|c' r']; [trivial|]. cbn [length] in *.
    destruct (c' =? 125); [lia|].
    destruct (c' =? 34); [|trivial].
    pose proof (object_loop_fuel fuel (scan_once fuel) IH fuel r' [] ltac:(lia) ltac:(lia)) as Ho.
    destruct (object_loop (scan_once fuel) fuel r' []); [lia|trivial|contradiction]. }
  destruct (c =? 91).
  { unfold JSONArray. pose proof (skip_ws_length r) as Hw.
    destruct (skip_ws r) as [|c' r']; [trivial|]. cbn [length] in *.
    destruct (c' =? 93); [lia|].
    pose proof (array_loop_fuel fuel (scan_once fuel) IH fuel (c' :: r') []
                  ltac:(cbn [length]; lia) ltac:(lia)) as Ha.
    destruct (array_loop (scan_once fuel) fuel (c' :: r') []);
      [cbn [length] in Ha; lia|trivial|contradiction]. }
  destruct (match_number (c :: r)) as [[v rest]|] eqn:Hnum.
  { apply match_number_length in Hnum. exact Hnum. }
  destruct (match_constant constants (c :: r)) as [[v rest]|] eqn:Hc; [|trivial].
  apply match_constant_length in Hc. exact Hc.
Qed.

(** [loads] fails only where the scanner gives up or text is left over,
    never for lack of fuel. *)
Lemma loads_fuel s : scan_once (S (length s)) (skip_ws s) <> PFuel.
Proof.
  pose proof (scan_once_fuel (S (length s)) (skip_ws s)) as H.
  pose proof (skip_ws_length s) as Hw. specialize (H ltac:(lia)).
  destruct (scan_once (S (length s)) (skip_ws s)); [discriminate..|contradiction].
Qed.

(** ** Facts about [dict] *)

Lemma dict_lookup_set_same k v d : dict_lookup k (dict_set k v d) = Some v.
Proof.
  induction d as [|[k' v'] d IH]; cbn [dict_set dict_lookup].
  - rewrite str_eqb_refl. reflexivity.
  - destruct (str_eqb k k') eqn:E; cbn [dict_lookup]; rewrite E; [reflexivity | exact IH].
Qed.

Lemma dict_lookup_set_other k k' v d :
  str_eqb k' k = false -> dict_lookup k' (dict_set k v d) = dict_lookup k' d.
Proof.
  intros Hne. induction d as [|[k0 v0] d IH]; cbn [dict_set dict_lookup].
  - rewrite Hne. reflexivity.
  - destruct (str_eqb k k0) eqn:E; cbn [dict_lookup].
    + apply str_eqb_eq in E. subst k0. rewrite Hne. reflexivity.
    + rewrite IH. reflexivity.
Qed.

Lemma dict_lookup_del_same k d : dict_lookup k (dict_del k d) = None.
Proof.
  induction d as [|[k' v'] d IH]; [reflexivity|]. cbn [dict_del].
  destruct (str_eqb k k') eqn:E; [exact IH|]. cbn [dict_lookup]. rewrite E. exact IH.
Qed.

Lemma dict_lookup_del_other k k' d :
  str_eqb k' k = false -> dict_lookup k' (dict_del k d) = dict_lookup k' d.
Proof.
  intros Hne. induction d as [|[k0 v0] d IH]; [reflexivity|]. cbn [dict_del].
  destruct (str_eqb k k0) eqn:E; cbn [dict_lookup].
  - apply str_eqb_eq in E. subst k0. rewrite Hne. exact IH.
  - rewrite IH. reflexivity.
Qed.

(** A missing key and a key bound to [None] read the same through
    [d.get(k, None)]. *)
Lemma dict_get_del_set k k' d :
  dict_get k' (dict_del k d) = dict_get k' (dict_set k JNull d).
Proof.
  unfold dict_get. destruct (str_eqb k' k) eqn:E.
  - apply str_eqb_eq in E. subst k'.
    rewrite dict_lookup_del_same, dict_lookup_set_same. reflexivity.
  - rewrite dict_lookup_del_other, dict_lookup_set_other by exact E. reflexivity.
Qed.

Lemma dict_get_missing k d : dict_lookup k d = None -> dict_get k d = JNull.
Proof. intros H. unfold dict_get. rewrite H. reflexivity. Qed.

Lemma dict_get_agree k d d' :
  dict_lookup k d' = dict_lookup k d -> dict_get k d' = dict_get k d.
Proof. intros H. unfold dict_get. rewrite H. reflexivity. Qed.

(** ** Threads through [thread_to_dict] and [dict_to_thread] *)

Lemma dict_to_thread_to_dict t : dict_to_thread (JDict (thread_to_dict t)) = Ok t.
Proof. destruct t. reflexivity. Qed.

Lemma list_map_threads threads :
  list_map dict_to_thread (map (fun t => JDict (thread_to_dict t)) threads) = Ok threads.
Proof.
  induction threads as [|t threads IH]; [reflexivity|].
  cbn [map list_map]. rewrite dict_to_thread_to_dict. cbn [bind].
  rewrite IH. reflexivity.
Qed.

Lemma thread_dict_plain t :
  thread_plain t = true -> plain (JDict (thread_to_dict t)) = true.
Proof.
  destruct t as [c d n e b h w]. unfold thread_plain, thread_values.
  cbn [forallb color description catalog_number details brand chart weight].
  rewrite !andb_true_iff. intros (Hc & Hd & Hn & He & Hb & Hh & Hw & _).
  cbn [plain thread_to_dict map fst snd forallb
       color description catalog_number details brand chart weight].
  rewrite Hc, Hd, Hn, He, Hb, Hh, Hw. reflexivity.
Qed.

Lemma threads_json_plain threads :
  forallb thread_plain threads = true ->
  plain (JList (map (fun t => JDict (thread_to_dict t)) threads)) = true.
Proof.
  intros H. cbn [plain]. rewrite forallb_forall in *.
  intros v Hin. apply in_map_iff in Hin as (t & <- & Hin).
  apply thread_dict_plain, H, Hin.
Qed.


Lemma list_map_dicts l :
  forallb is_dict l = true -> exists threads, list_map dict_to_thread l = Ok threads.
Proof.
  induction l as [|v l IH]; [exists []; reflexivity|]. cbn [forallb list_map].
  destruct v; cbn [is_dict andb]; try discriminate.
  intros H. destruct (IH H) as [ts Hts]. cbn [dict_to_thread bind]. rewrite Hts.
  eexists. reflexivity.
Qed.

(** ** Bytes after the container *)

Lemma firstn_skipn_app {A} (l s : list A) k m :
  (k + m <= length l)%nat -> firstn m (skipn k (l ++ s)) = firstn m (skipn k l).
Proof.
  intros H. rewrite skipn_app. replace (k - length l)%nat with 0%nat by lia.
  change (skipn 0 s) with s. rewrite firstn_app, length_skipn.
  replace (m - (length l - k))%nat with 0%nat by lia.
  cbn [firstn]. apply app_nil_r.
Qed.

Lemma firstn_app_enough {A} (l s : list A) m :
  (m <= length l)%nat -> firstn m (l ++ s) = firstn m l.
Proof. intros H. apply (firstn_skipn_app l s 0 m). lia. Qed.

Lemma rows_of_app n : forall f s,
  (12 * n <= length f)%nat -> rows_of n (f ++ s) = rows_of n f.
Proof.
  induction n as [|n IH]; intros f s H; [reflexivity|]. cbn [rows_of].
  rewrite firstn_app_enough, !firstn_skipn_app by lia.
  rewrite skipn_app. replace (12 - length f)%nat with 0%nat by lia.
  change (skipn 0 s) with s. rewrite IH by (rewrite length_skipn; lia).
  reflexivity.
Qed.

Lemma declared_count_nonneg b : 0 <= declared_count b.
Proof. unfold declared_count. apply le_combine_bound. Qed.

Lemma declared_size_nonneg b : 0 <= declared_size b.
Proof. unfold declared_size. apply le_combine_bound. Qed.

(** [main] reads the declared counts and sizes and nothing after them. *)
Lemma Decode_app b s :
  container_size b <= Z.of_nat (length b) -> Decode (b ++ s) = Decode b.
Proof.
  unfold container_size. intros H.
  pose proof (declared_count_nonneg b) as Hc.
  pose proof (declared_size_nonneg b) as Hm.
  set (n := Z.to_nat (declared_count b)) in *.
  assert (Hn : Z.of_nat n = declared_count b) by (apply Z2Nat.id; exact Hc).
  assert (Hcount : declared_count (b ++ s) = declared_count b).
  { unfold declared_count. rewrite firstn_app_enough by lia. reflexivity. }
  assert (Hsize : declared_size (b ++ s) = declared_size b).
  { unfold declared_size. rewrite Hcount. fold n.
    rewrite firstn_skipn_app by lia. reflexivity. }
  pose proof (read_frame_enough b ltac:(lia)) as Hb.
  pose proof (read_frame_enough (b ++ s)) as Hbs.
  rewrite Hcount, Hsize, length_app in Hbs. specialize (Hbs ltac:(lia)).
  cbv zeta in Hb, Hbs. fold n in Hb, Hbs.
  rewrite (Decode_frame _ _ _ _ Hb), (Decode_frame _ _ _ _ Hbs).
  rewrite skipn_app. replace (4 - length b)%nat with 0%nat by lia.
  change (skipn 0 s) with s. rewrite rows_of_app by (rewrite length_skipn; lia).
  rewrite firstn_skipn_app by lia. reflexivity.
Qed.

(** ** The exceptions of the metadata steps *)

Lemma emit_raise c r e : Utf8.emit c r = Raise e -> r = Raise e.
Proof. destruct r; cbn; congruence. Qed.

Lemma utf8_decode_error n : forall b e,
  (length b <= n)%nat -> Utf8.decode b = Raise e -> e = UnicodeDecodeError.
Proof.
  induction n as [|n IH]; intros b e Hn.
  - destruct b; [discriminate | cbn in Hn; lia].
  - destruct b as [|b0 r0]; [discriminate|].
    cbn [Utf8.decode]. cbv zeta. cbn [length] in Hn.
    repeat match goal with
           | |- context [if ?c then _ else _] => destruct c
           | |- context [match ?l with [] => _ | _ :: _ => _ end] =>
               is_var l; destruct l; cbn [length] in Hn
           end;
      intros H;
      first [ injection H as <-; reflexivity
            | apply emit_raise in H; eapply IH; [|exact H]; cbn [length]; lia ].
Qed.

Lemma loads_error s e : loads s = Raise e -> e = JSONDecodeError.
Proof.
  unfold loads. destruct (strip_prefix [65279] s); [congruence|].
  destruct (scan_once (S (length s)) (skip_ws s)) as [v rest| |]; [|congruence..].
  destruct (skip_ws rest); congruence.
Qed.

Lemma write_container_range stitches tb :
  forallb stitch_ok stitches = false ->
  exists f', write_container stitches tb [] = (Raise struct_error, f').
Proof.
  intros H. unfold write_container. unfold iobind at 1, lift at 1.
  destruct (in_u32 (Z.of_nat (length stitches))) eqn:Hn.
  - rewrite (pack_I_ok _ Hn). unfold iobind at 1, write at 1. unfold iobind at 1.
    match goal with
    | |- context [write_rows stitches ?f] =>
        destruct (write_rows_range stitches f H) as [f' ->]
    end.
    eauto.
  - rewrite (pack_I_range _ Hn). eauto.
Qed.

(** ** The ways the exporter ends *)

Lemma write_rows_prefix rows : forall f,
  forallb stitch_ok rows = false ->
  write_rows rows f = (Raise struct_error, f ++ flat_map row_bytes (good_prefix rows)).
Proof.
  induction rows as [|r rows IH]; intros f H; [discriminate|].
  cbn [forallb] in H. cbn [write_rows good_prefix]. unfold iobind at 1, lift at 1.
  destruct (stitch_ok r) eqn:Hr.
  - rewrite (pack_iii_ok _ Hr). unfold iobind at 1, write at 1.
    rewrite IH by exact H. cbn [flat_map]. rewrite <- app_assoc. reflexivity.
  - rewrite (pack_iii_range _ Hr). cbn [flat_map]. rewrite app_nil_r. reflexivity.
Qed.

(** The four ways the body of [with open(output, "wb")] ends. *)
Lemma write_container_outcome stitches tb :
  write_container stitches tb []
  = if negb (in_u32 (Z.of_nat (length stitches))) then (Raise struct_error, [])
    else if negb (forallb stitch_ok stitches) then
      (Raise struct_error,
       le32 (Z.of_nat (length stitches)) ++ flat_map row_bytes (good_prefix stitches))
    else if negb (in_u32 (Z.of_nat (length tb))) then
      (Raise struct_error,
       le32 (Z.of_nat (length stitches)) ++ flat_map row_bytes stitches)
    else (Ok tt, container stitches tb).
Proof.
  unfold write_container. unfold iobind at 1, lift at 1.
  destruct (in_u32 (Z.of_nat (length stitches))) eqn:Hn; cbn [negb].
  2:{ rewrite (pack_I_range _ Hn). reflexivity. }
  rewrite (pack_I_ok _ Hn). unfold iobind at 1, write at 1. unfold iobind at 1.
  cbn [app].
  destruct (forallb stitch_ok stitches) eqn:Hs; cbn [negb].
  2:{ rewrite write_rows_prefix by exact Hs. reflexivity. }
  rewrite write_rows_ok by exact Hs.
  unfold iobind at 1, lift at 1.
  destruct (in_u32 (Z.of_nat (length tb))) eqn:Hm; cbn [negb].
  2:{ rewrite (pack_I_range _ Hm). reflexivity. }
  rewrite (pack_I_ok _ Hm). unfold iobind at 1, write at 1. unfold write.
  unfold container. rewrite <- !app_assoc. reflexivity.
Qed.

(** ** Threads whose attributes [json] reproduces *)

Lemma attribute_ok_stable v : attribute_ok v = true -> stable v = true.
Proof. destruct v; cbn [attribute_ok stable]; try discriminate; auto. Qed.

Lemma thread_dict_stable t :
  thread_stable t = true -> stable (JDict (thread_to_dict t)) = true.
Proof.
  destruct t as [c d n e b h w]. unfold thread_stable, thread_values.
  cbn [forallb color description catalog_number details brand chart weight].
  rewrite !andb_true_iff. intros (Hc & Hd & Hn & He & Hb & Hh & Hw & _).
  apply attribute_ok_stable in Hc, Hd, Hn, He, Hb, Hh, Hw.
  cbn [stable thread_to_dict map fst snd forallb
       color description catalog_number details brand chart weight].
  rewrite Hc, Hd, Hn, He, Hb, Hh, Hw. reflexivity.
Qed.

Lemma threads_json_stable threads :
  forallb thread_stable threads = true ->
  stable (JList (map (fun t => JDict (thread_to_dict t)) threads)) = true.
Proof.
  intros H. cbn [stable]. rewrite forallb_forall in *.
  intros v Hin. apply in_map_iff in Hin as (t & <- & Hin).
  apply thread_dict_stable, H, Hin.
Qed.

(** ** A container around any metadata bytes *)


Lemma Decode_container st blob :
  forallb stitch_ok st = true ->
  Z.of_nat (length st) < 2 ^ 32 ->
  Z.of_nat (length blob) < 2 ^ 32 ->
  Decode (container st blob) = finish st blob.
Proof.
  intros Hs Hn Hm. rewrite <- (app_nil_r (container st blob)).
  apply (Decode_frame _ st blob []), read_frame_container; assumption.
Qed.

(** ** Metadata too long for its size field *)

Lemma escape_repeat_a n : flat_map escape_char (repeat 97 n) = repeat 97 n.
Proof.
  induction n as [|n IH]; [reflexivity|]. cbn [repeat flat_map].
  rewrite IH. reflexivity.
Qed.

Lemma long_description_plain n : thread_plain (long_description n) = true.
Proof.
  unfold thread_plain, thread_values, long_description.
  cbn [forallb plain color description catalog_number details brand chart weight].
  rewrite !andb_true_r. apply forallb_forall. intros c Hin.
  apply repeat_spec in Hin. subst c. reflexivity.
Qed.

(** The metadata text holds the description. *)
Lemma long_description_length n :
  (n <= length (threads_json [long_description n]))%nat.
Proof.
  unfold threads_json. rewrite dumps_list_length. cbn [map join].
  rewrite dumps_dict_length.
  pose proof (join_length_in (lit ", ") (map item (thread_to_dict (long_description n)))
                (item (lit "description", JStr (repeat 97 n)))) as H.
  assert (Hi : (n <= length (item (lit "description", JStr (repeat 97%Z n))))%nat).
  { unfold item. cbn [fst snd dumps]. unfold encode_basestring_ascii.
    rewrite !length_app, escape_repeat_a, repeat_length. lia. }
  specialize (H ltac:(right; left; reflexivity)). lia.
Qed.

(** [read.py] on a description of 2^32 characters or more: the metadata does
    not fit its size field. *)
Lemma Encode_metadata_too_long st n :
  forallb stitch_ok st = true ->
  Z.of_nat (length st) < 2 ^ 32 ->
  2 ^ 32 <= Z.of_nat n ->
  Encode st [long_description n] = Raise struct_error.
Proof.
  intros Hs Hn Hbig.
  assert (Hp : forallb thread_plain [long_description n] = true).
  { cbn [forallb]. rewrite long_description_plain. reflexivity. }
  pose proof (dumps_ascii _ (threads_json_plain _ Hp)) as Hascii.
  fold (threads_json [long_description n]) in Hascii.
  pose proof (long_description_length n) as Hlen.
  unfold Encode, ReadPy.main. cbn [stitches threadlist].
  rewrite (utf8_encode_ascii _ Hascii), write_container_outcome.
  replace (in_u32 (Z.of_nat (length st))) with true
    by (symmetry; apply in_u32_true; lia).
  rewrite Hs. cbn [negb].
  replace (in_u32 (Z.of_nat (length (map byte.of_Z (threads_json [long_description n])))))
    with false; [reflexivity|].
  symmetry. unfold in_u32. apply andb_false_iff. right. apply Z.ltb_ge.
  rewrite length_map. lia.
Qed.

(** ** Checks on concrete inputs *)

Example pack_I_example : pack_I 2 = Ok [Byte.x02; Byte.x00; Byte.x00; Byte.x00].
Proof. reflexivity. Qed.

Example pack_iii_example :
  pack_iii (10, -20, 258)
  = Ok [Byte.x0a; Byte.x00; Byte.x00; Byte.x00;
        Byte.xec; Byte.xff; Byte.xff; Byte.xff;
        Byte.x02; Byte.x01; Byte.x00; Byte.x00].
Proof. reflexivity. Qed.

Example pack_I_overflow : pack_I 4294967296 = Raise struct_error.
Proof. reflexivity. Qed.

Example dumps_example :
  dumps (JList [JInt (-120); JStr [233; 10]; JNull])
  = lit "[-120, " ++ [34] ++ lit "\u00e9\n" ++ [34] ++ lit ", null]".
Proof. reflexivity. Qed.

Example loads_example :
  loads (lit " [1, {}, -0 ,true ] ") = Ok (JList [JInt 1; JDict []; JInt 0; JBool true]).
Proof. reflexivity. Qed.

Example loads_trailing_comma : loads (lit "[1,]") = Raise JSONDecodeError.
Proof. reflexivity. Qed.

Example loads_floats :
  loads (lit "[40.0, 1e-05, -Infinity]")
  = Ok (JList [JFloat (lit "40.0"); JFloat (lit "1e-05"); JFloat (lit "-Infinity")]).
Proof. reflexivity. Qed.

Example loads_dumps_surrogates :
  dumps (JStr [55357; 56832]) = dumps (JStr [128512])
  /\ loads (dumps (JStr [55357; 56832])) = Ok (JStr [128512])
  /\ loads (dumps (JStr [56832; 55357])) = Ok (JStr [56832; 55357]).
Proof. repeat split. Qed.

Example example_container_length : length example_container = 167%nat.
Proof. reflexivity. Qed.

(** * The claims *)

(** C1, as amended. Round trip: for every stitch list whose components fit
    a signed 32-bit integer and every thread list whose attributes are None,
    a boolean, an integer of at most 4300 decimal digits, a float other
    than NaN or a string without a surrogate pair, the empty lists
    included, within what the two 32-bit length fields can hold, [Encode]
    succeeds and [Decode] of its bytes is the original stitch list and a
    thread list equal to the original in all seven attributes. *)
Theorem Decode_Encode_roundtrip stitches threads :
  forallb stitch_ok stitches = true ->
  Z.of_nat (length stitches) < 2 ^ 32 ->
  forallb thread_stable threads = true ->
  Z.of_nat (length (threads_json threads)) < 2 ^ 32 ->
  exists b, Encode stitches threads = Ok b /\ Decode b = Ok (stitches, threads).
Proof.
  intros Hs Hn Hp Hm.
  pose proof (threads_json_stable threads Hp) as Hstable.
  pose proof (dumps_ascii_stable _ Hstable) as Hascii.
  fold (threads_json threads) in Hascii.
  set (tb := map byte.of_Z (threads_json threads)).
  assert (Hlen : length tb = length (threads_json threads)) by apply length_map.
  exists (container stitches tb). split.
  - apply Encode_container; try assumption.
    + apply utf8_encode_ascii, Hascii.
    + rewrite Hlen. exact Hm.
  - rewrite Decode_container; [|assumption..|rewrite Hlen; exact Hm].
    unfold finish, tb. rewrite utf8_decode_ascii by exact Hascii. cbn [bind].
    unfold threads_json. rewrite loads_dumps_stable by exact Hstable.
    cbn [bind iter]. rewrite list_map_threads. reflexivity.
Qed.

Lemma Decode_Encode_roundtrip_witness :
  exists b, Encode example_stitches [example_thread; weighted_thread] = Ok b
            /\ Decode b = Ok (example_stitches, [example_thread; weighted_thread]).
Proof.
  apply (Decode_Encode_roundtrip example_stitches [example_thread; weighted_thread]);
    vm_compute; reflexivity.
Defined.

(** C1, the claim as stated fails: a thread whose description is the two
    code points of a surrogate pair is written and read without an error,
    and comes back with a description of one character, the one the pair
    encodes. *)
Lemma Decode_Encode_roundtrip_counterexample :
  exists b, Encode example_stitches [pair_thread] = Ok b
            /\ Decode b = Ok (example_stitches, [joined_thread])
            /\ description pair_thread = JStr [55357; 56832]
            /\ description joined_thread = JStr [128512].
Proof.
  exists (container example_stitches (map byte.of_Z (threads_json [pair_thread]))).
  repeat split; vm_compute; reflexivity.
Qed.

(** C2. Truncation: a byte sequence shorter than the four bytes of the
    count, the twelve bytes of each declared stitch and the four bytes of
    the size makes [Decode] raise [struct.error], the exception of a short
    [unpack] buffer, and nothing else. *)
Theorem Decode_truncated b :
  Z.of_nat (length b) < 4 + 12 * declared_count b + 4 ->
  Decode b = Raise struct_error.
Proof.
  intros H. destruct (read_frame_short b H) as [f' Hf].
  exact (Decode_frame_raise _ _ _ Hf).
Qed.

Lemma Decode_truncated_witness :
  Z.of_nat (length truncated_example) < 4 + 12 * declared_count truncated_example + 4
  /\ Decode truncated_example = Raise struct_error.
Proof.
  split; [vm_compute; reflexivity|].
  apply (Decode_truncated truncated_example). vm_compute. reflexivity.
Defined.




(** C4. Size law: with N stitches and M bytes of metadata the container has
    8 + 12 N + M bytes. *)
Theorem Encode_size_law stitches threads tb :
  forallb stitch_ok stitches = true ->
  Z.of_nat (length stitches) < 2 ^ 32 ->
  Utf8.encode (threads_json threads) = Ok tb ->
  Z.of_nat (length tb) < 2 ^ 32 ->
  exists b, Encode stitches threads = Ok b
            /\ Z.of_nat (length b)
               = 8 + 12 * Z.of_nat (length stitches) + Z.of_nat (length tb).
Proof.
  intros Hs Hn Hj Hm. exists (container stitches tb). split.
  - apply Encode_container; assumption.
  - apply container_length.
Qed.

Lemma Encode_size_law_witness :
  exists b, Encode example_stitches example_threads = Ok b
            /\ Z.of_nat (length b) = 8 + 12 * 2 + 135.
Proof.
  apply (Encode_size_law example_stitches example_threads
           (map byte.of_Z (threads_json example_threads)));
    vm_compute; reflexivity.
Defined.



(** C6. Missing-field tolerance: [dict_to_thread] never fails on a dict; an
    attribute whose key is absent is None; and the thread depends on the
    dict through the seven known keys only. *)
Theorem dict_to_thread_missing_fields d :
  exists t,
    dict_to_thread (JDict d) = Ok t
    /\ (dict_lookup (lit "hex_color") d = None -> color t = JNull)
    /\ (dict_lookup (lit "description") d = None -> description t = JNull)
    /\ (dict_lookup (lit "catalog_number") d = None -> catalog_number t = JNull)
    /\ (dict_lookup (lit "details") d = None -> details t = JNull)
    /\ (dict_lookup (lit "brand") d = None -> brand t = JNull)
    /\ (dict_lookup (lit "chart") d = None -> chart t = JNull)
    /\ (dict_lookup (lit "weight") d = None -> weight t = JNull)
    /\ forall d',
         (forall k, In k thread_keys -> dict_lookup k d' = dict_lookup k d) ->
         dict_to_thread (JDict d') = Ok t.
Proof.
  eexists. split; [reflexivity|].
  cbn [color description catalog_number details brand chart weight].
  repeat (split; [apply dict_get_missing|]).
  intros d' H. cbn [dict_to_thread]. do 2 f_equal;
    apply dict_get_agree, H; unfold thread_keys; cbn [In]; tauto.
Qed.

(** C7. A missing key and a key bound to null decode alike: removing a key
    from a dict and binding it to None give the same thread.  This holds for
    every key, the seven known ones among them. *)
Theorem dict_to_thread_null_missing d k :
  dict_lookup k (dict_del k d) = None
  /\ dict_lookup k (dict_set k JNull d) = Some JNull
  /\ dict_to_thread (JDict (dict_del k d))
     = dict_to_thread (JDict (dict_set k JNull d)).
Proof.
  split; [apply dict_lookup_del_same|]. split; [apply dict_lookup_set_same|].
  cbn [dict_to_thread]. rewrite !dict_get_del_set. reflexivity.
Qed.

(** C8. The encode convention is null, not omission: [thread_to_dict] gives
    exactly the seven keys, in a fixed order and pairwise distinct, each
    bound to the thread's attribute, so that an attribute that is None is
    written as the JSON text [null]. *)
Theorem thread_to_dict_seven_keys t :
  map fst (thread_to_dict t) = thread_keys
  /\ map snd (thread_to_dict t) = thread_values t
  /\ distinct thread_keys = true
  /\ thread_to_dict no_attributes = map (fun k => (k, JNull)) thread_keys
  /\ dumps JNull = lit "null".
Proof. repeat split. Qed.

(** C9. Trailing bytes are ignored: when a byte sequence has exactly the
    length its count and size fields declare and decodes, it decodes to the
    same stitches and threads with any bytes appended. *)
Theorem Decode_trailing_bytes b s r :
  Z.of_nat (length b) = container_size b ->
  Decode b = Ok r ->
  Decode (b ++ s) = Ok r.
Proof. intros Hsize Hb. rewrite Decode_app by lia. exact Hb. Qed.

Lemma Decode_trailing_bytes_witness :
  Decode (example_container ++ [Byte.x01; Byte.x02; Byte.x03])
  = Ok (example_stitches, example_threads).
Proof.
  apply (Decode_trailing_bytes example_container); vm_compute; reflexivity.
Defined.

(** C10, as amended. Encode is partial on out-of-range integers: a stitch
    component outside the signed 32-bit range makes [Encode] raise
    ([struct.error] whenever the metadata bytes exist), never write a
    wrapped value; when every component is in range and the count fits an
    unsigned 32-bit integer, the writes of the count and of the rows
    succeed, and [Encode] succeeds when the byte length of the metadata
    fits an unsigned 32-bit integer as well. *)
Theorem Encode_out_of_range stitches threads :
  (forallb stitch_ok stitches = false -> exists e, Encode stitches threads = Raise e)
  /\ forall tb,
       Utf8.encode (threads_json threads) = Ok tb ->
       (forallb stitch_ok stitches = false ->
        Encode stitches threads = Raise struct_error)
       /\ (forallb stitch_ok stitches = true ->
           Z.of_nat (length stitches) < 2 ^ 32 ->
           (b <- lift (pack_I (Z.of_nat (length stitches))) ;; write b ;;;
            write_rows stitches) []
           = (Ok tt, le32 (Z.of_nat (length stitches)) ++ flat_map row_bytes stitches)
           /\ (Z.of_nat (length tb) < 2 ^ 32 ->
               Encode stitches threads = Ok (container stitches tb))).
Proof.
  assert (Hraise : forall tb, Utf8.encode (threads_json threads) = Ok tb ->
            forallb stitch_ok stitches = false ->
            Encode stitches threads = Raise struct_error).
  { intros tb Hj H. unfold Encode, ReadPy.main. simpl. rewrite Hj.
    destruct (write_container_range stitches tb H) as [f' ->]. reflexivity. }
  split.
  - intros H. destruct (Utf8.encode (threads_json threads)) as [tb|e] eqn:Hj.
    + exists struct_error. apply (Hraise tb eq_refl H).
    + exists e. unfold Encode, ReadPy.main. simpl. rewrite Hj. reflexivity.
  - intros tb Hj. split; [apply (Hraise tb Hj)|].
    intros Hs Hn. split.
    + unfold iobind at 1, lift at 1.
      rewrite pack_I_ok by (apply in_u32_true; lia).
      unfold iobind at 1, write at 1. rewrite write_rows_ok by exact Hs.
      reflexivity.
    + intros Hm. apply Encode_container; assumption.
Qed.

Lemma Encode_out_of_range_witness :
  Encode overflow_stitches example_threads = Raise struct_error.
Proof.
  apply (proj2 (Encode_out_of_range overflow_stitches example_threads)
           (map byte.of_Z (threads_json example_threads)));
    vm_compute; reflexivity.
Defined.

(** C10, the claim as stated fails: with every stitch component in the
    signed 32-bit range and a count that fits, [Encode] still raises
    [struct.error] when the metadata is too long for its size field, here
    for one thread whose description has 2^32 characters. *)
Lemma Encode_out_of_range_counterexample :
  forallb stitch_ok example_stitches = true
  /\ Z.of_nat (length example_stitches) < 2 ^ 32
  /\ Encode example_stitches [long_description (Z.to_nat (2 ^ 32))]
     = Raise struct_error.
Proof.
  split; [reflexivity|]. split; [reflexivity|].
  apply Encode_metadata_too_long; [reflexivity | reflexivity |].
  rewrite Z2Nat.id; lia.
Qed.

(** * Further properties of the two scripts *)

(** ** The exporter's outcomes *)

(** X1. What [read.py] leaves behind: once the metadata bytes exist, [main]
    ends in one of four ways.  A stitch count that does not fit 32 bits
    raises [struct.error] with the output file created and empty; a stitch
    out of the signed 32-bit range raises it with the count and the rows in
    front of that stitch written; a metadata size that does not fit raises
    it with the count and all rows written; otherwise [main] returns with
    the whole container written. *)
Theorem main_export_outcome stitches threads tb :
  Utf8.encode (threads_json threads) = Ok tb ->
  ReadPy.main {| stitches := stitches; threadlist := threads |}
  = if negb (in_u32 (Z.of_nat (length stitches))) then (Raise struct_error, [])
    else if negb (forallb stitch_ok stitches) then
      (Raise struct_error,
       le32 (Z.of_nat (length stitches)) ++ flat_map row_bytes (good_prefix stitches))
    else if negb (in_u32 (Z.of_nat (length tb))) then
      (Raise struct_error,
       le32 (Z.of_nat (length stitches)) ++ flat_map row_bytes stitches)
    else (Ok tt, container stitches tb).
Proof.
  intros Hj. unfold ReadPy.main. simpl. rewrite Hj.
  apply write_container_outcome.
Qed.

Lemma main_export_outcome_witness :
  ReadPy.main {| stitches := overflow_stitches; threadlist := example_threads |}
  = (Raise struct_error, le32 2 ++ row_bytes (0, 0, 1)).
Proof.
  apply (main_export_outcome overflow_stitches example_threads
           (map byte.of_Z (threads_json example_threads))).
  vm_compute. reflexivity.
Defined.

(** ** The importer's exceptions *)

Lemma list_map_dict_error l e :
  list_map dict_to_thread l = Raise e -> e = AttributeError.
Proof.
  induction l as [|v l IH]; [discriminate|]. cbn [list_map].
  destruct v; cbn [dict_to_thread bind]; try (intros [= <-]; reflexivity).
  destruct (list_map dict_to_thread l); [discriminate|].
  intros [= <-]. apply IH. reflexivity.
Qed.

Lemma iter_error v e : iter v = Raise e -> e = TypeError.
Proof. destruct v; cbn [iter]; congruence. Qed.

(** The exceptions of the steps after the framing. *)
Lemma finish_error stitches blob e :
  finish stitches blob = Raise e ->
  e = UnicodeDecodeError \/ e = JSONDecodeError \/ e = TypeError
  \/ e = AttributeError.
Proof.
  unfold finish.
  destruct (Utf8.decode blob) as [text|e1] eqn:Hd; cbn [bind].
  2:{ intros [= <-]. left. apply (utf8_decode_error (length blob) blob); [lia | exact Hd]. }
  destruct (loads text) as [v|e1] eqn:Hl; cbn [bind].
  2:{ intros [= <-]. right; left. apply (loads_error text), Hl. }
  destruct (iter v) as [items|e1] eqn:Hi; cbn [bind].
  2:{ intros [= <-]. right; right; left. apply (iter_error v), Hi. }
  destruct (list_map dict_to_thread items) as [threads|e1] eqn:Hm; cbn [bind].
  - discriminate.
  - intros [= <-]. right; right; right. apply (list_map_dict_error items), Hm.
Qed.

Lemma finish_stitches stitches blob st th :
  finish stitches blob = Ok (st, th) -> st = stitches.
Proof.
  unfold finish.
  destruct (Utf8.decode blob) as [text|]; cbn [bind]; [|discriminate].
  destruct (loads text) as [v|]; cbn [bind]; [|discriminate].
  destruct (iter v) as [items|]; cbn [bind]; [|discriminate].
  destruct (list_map dict_to_thread items); cbn [bind]; [|discriminate].
  intros [= <- _]. reflexivity.
Qed.

(** A decoded file is long enough for its framing, and its stitches are
    the rows of that framing. *)
Lemma Decode_ok_frame b st th :
  Decode b = Ok (st, th) ->
  4 + 12 * declared_count b + 4 <= Z.of_nat (length b)
  /\ st = rows_of (Z.to_nat (declared_count b)) (skipn 4 b).
Proof.
  intros H.
  destruct (Z.lt_ge_cases (Z.of_nat (length b)) (4 + 12 * declared_count b + 4))
    as [Hshort | Hlong].
  - destruct (read_frame_short b Hshort) as [f' Hf].
    rewrite (Decode_frame_raise _ _ _ Hf) in H. discriminate.
  - split; [exact Hlong|].
    pose proof (read_frame_enough b Hlong) as Hf. cbv zeta in Hf.
    rewrite (Decode_frame _ _ _ _ Hf) in H.
    apply finish_stitches in H. exact H.
Qed.

(** X2. [struct.error] is the importer's exception for a short framing and
    for nothing else: [Decode] raises it exactly when the file is shorter
    than the count, the declared rows and the size field.  Whatever is
    wrong with the metadata raises another exception, and the importer
    never raises [UnicodeEncodeError]. *)
Theorem Decode_struct_error_iff b :
  (Decode b = Raise struct_error
   <-> Z.of_nat (length b) < 4 + 12 * declared_count b + 4)
  /\ Decode b <> Raise UnicodeEncodeError.
Proof.
  destruct (Z.lt_ge_cases (Z.of_nat (length b)) (4 + 12 * declared_count b + 4))
    as [Hshort | Hlong].
  - destruct (read_frame_short b Hshort) as [f' Hf].
    rewrite (Decode_frame_raise _ _ _ Hf). split; [tauto | discriminate].
  - pose proof (read_frame_enough b Hlong) as Hf. cbv zeta in Hf.
    rewrite (Decode_frame _ _ _ _ Hf).
    assert (Hno : forall e, e = struct_error \/ e = UnicodeEncodeError ->
      finish (rows_of (Z.to_nat (declared_count b)) (skipn 4 b))
        (firstn (Z.to_nat (declared_size b))
           (skipn (8 + 12 * Z.to_nat (declared_count b)) b)) <> Raise e).
    { intros e He Hfin. apply finish_error in Hfin.
      destruct He as [-> | ->], Hfin as [Hx | [Hx | [Hx | Hx]]]; discriminate Hx. }
    split.
    + split; [intros H; exfalso; exact (Hno _ (or_introl eq_refl) H) | lia].
    + apply Hno. right. reflexivity.
Qed.

(** ** The stitches the importer returns *)

Lemma firstn_4_bound (f : bytes) : 0 <= le_combine (firstn 4 f) < 2 ^ 32.
Proof.
  pose proof (le_combine_bound (firstn 4 f)) as H.
  pose proof (length_firstn 4 f) as Hl.
  assert (2 ^ (8 * Z.of_nat (length (firstn 4 f))) <= 2 ^ 32)
    by (apply Z.pow_le_mono_r; lia).
  lia.
Qed.

Lemma unpack_i_range (f : bytes) : in_i32 (unpack_i (firstn 4 f)) = true.
Proof.
  apply in_i32_true. unfold unpack_i, to_signed32.
  pose proof (firstn_4_bound f) as H.
  destruct (Z.ltb_spec (le_combine (firstn 4 f)) (2 ^ 31)); lia.
Qed.

Lemma rows_of_ok n : forall f, forallb stitch_ok (rows_of n f) = true.
Proof.
  induction n as [|n IH]; intros f; [reflexivity|].
  cbn [rows_of forallb]. unfold stitch_ok at 1.
  rewrite !unpack_i_range, IH. reflexivity.
Qed.

Lemma rows_of_length n : forall f, length (rows_of n f) = n.
Proof. induction n as [|n IH]; intros f; cbn [rows_of length]; [|rewrite IH]; reflexivity. Qed.

(** X3. The stitches the importer returns always fit the format: whatever
    the bytes of the file, when [Decode] returns, every component of every
    stitch is within the signed 32-bit range, and there are exactly as many
    stitches as the first four bytes declare, fewer than 2^32. *)
Theorem Decode_stitches_in_range b st th :
  Decode b = Ok (st, th) ->
  forallb stitch_ok st = true
  /\ Z.of_nat (length st) = declared_count b
  /\ declared_count b < 2 ^ 32.
Proof.
  intros H. apply Decode_ok_frame in H as [_ ->].
  split; [apply rows_of_ok|]. split.
  - rewrite rows_of_length. apply Z2Nat.id, declared_count_nonneg.
  - unfold declared_count. apply firstn_4_bound.
Qed.

Lemma Decode_stitches_in_range_witness :
  forallb stitch_ok example_stitches = true
  /\ Z.of_nat (length example_stitches) = declared_count example_container
  /\ declared_count example_container < 2 ^ 32.
Proof.
  apply (Decode_stitches_in_range example_container example_stitches example_threads).
  vm_compute. reflexivity.
Defined.

(** ** Writing back the stitches that were read *)

Lemma le32_unpack_i (x : bytes) : length x = 4%nat -> le32 (unpack_i x) = x.
Proof.
  intros Hl. rewrite <- le32_split. unfold unpack_i, to_signed32.
  assert (Hs : le_split 4 (le_combine x) = x)
    by (rewrite <- Hl at 1; apply split_le_combine).
  destruct (le_combine x <? 2 ^ 31); [exact Hs|].
  rewrite le_split_mod. change (Z.of_nat 4 * 8) with 32.
  replace ((le_combine x - 2 ^ 32) mod 2 ^ 32) with (le_combine x mod 2 ^ 32).
  - change 32 with (Z.of_nat 4 * 8). rewrite <- le_split_mod. exact Hs.
  - rewrite Zminus_mod, Z_mod_same_full, Z.sub_0_r, Z.mod_mod by lia. reflexivity.
Qed.

Lemma firstn_plus {A} (l : list A) a b :
  firstn (a + b) l = firstn a l ++ firstn b (skipn a l).
Proof.
  revert l. induction a as [|a IH]; intros l; [reflexivity|].
  destruct l as [|x l]; cbn [Nat.add firstn skipn app].
  - rewrite firstn_nil. reflexivity.
  - rewrite IH. reflexivity.
Qed.

Lemma rows_of_bytes n : forall f,
  (12 * n <= length f)%nat ->
  flat_map row_bytes (rows_of n f) = firstn (12 * n) f.
Proof.
  induction n as [|n IH]; intros f H; [reflexivity|].
  cbn [rows_of flat_map]. rewrite IH by (rewrite length_skipn; lia).
  unfold row_bytes.
  rewrite !le32_unpack_i
    by (rewrite length_firstn, ?length_skipn; lia).
  replace (12 * S n)%nat with (4 + (4 + (4 + 12 * n)))%nat by lia.
  rewrite !firstn_plus, !skipn_skipn, <- !app_assoc. reflexivity.
Qed.

(** X4. The stitch section survives an import byte for byte: when [Decode]
    returns, packing the count and the stitches it returned the way
    [read.py] does gives back the first 4 + 12 N bytes of the file. *)
Theorem Decode_stitch_section b st th :
  Decode b = Ok (st, th) ->
  le32 (Z.of_nat (length st)) ++ flat_map row_bytes st
  = firstn (4 + 12 * length st) b.
Proof.
  intros H. apply Decode_ok_frame in H as [Hlong ->].
  pose proof (declared_count_nonneg b) as Hc.
  set (n := Z.to_nat (declared_count b)) in *.
  assert (Hn : Z.of_nat n = declared_count b) by (apply Z2Nat.id; exact Hc).
  rewrite rows_of_length, Hn, firstn_plus.
  rewrite rows_of_bytes by (rewrite length_skipn; lia).
  f_equal. unfold declared_count. rewrite <- le32_split.
  apply split_le_combine'. rewrite length_firstn. lia.
Qed.

Lemma Decode_stitch_section_witness :
  le32 (Z.of_nat (length example_stitches)) ++ flat_map row_bytes example_stitches
  = firstn (4 + 12 * length example_stitches) example_container.
Proof.
  apply (Decode_stitch_section example_container example_stitches example_threads).
  vm_compute. reflexivity.
Defined.

(** ** Containers with metadata written by [dumps] *)

Lemma list_map_dicts_of ds :
  list_map dict_to_thread (map JDict ds) = Ok (map thread_of_dict ds).
Proof.
  induction ds as [|d ds IH]; [reflexivity|].
  cbn [map list_map dict_to_thread bind]. rewrite IH. reflexivity.
Qed.

(** The importer on a container whose metadata is the text of a [plain]
    value. *)
Lemma Decode_container_of stitches v :
  forallb stitch_ok stitches = true ->
  Z.of_nat (length stitches) < 2 ^ 32 ->
  plain v = true ->
  Z.of_nat (length (dumps v)) < 2 ^ 32 ->
  Decode (container_of stitches v)
  = bind (iter v) (fun items =>
    bind (list_map dict_to_thread items) (fun threads => Ok (stitches, threads))).
Proof.
  intros Hs Hn Hp Hm. unfold container_of.
  set (tb := map byte.of_Z (dumps v)).
  assert (Hlen : length tb = length (dumps v)) by apply length_map.
  rewrite <- (app_nil_r (container stitches tb)).
  rewrite (Decode_frame _ stitches tb []).
  - unfold finish, tb. rewrite utf8_decode_ascii by (apply dumps_ascii, Hp).
    cbn [bind]. rewrite loads_dumps by exact Hp. reflexivity.
  - apply read_frame_container; try assumption. rewrite Hlen. exact Hm.
Qed.

(** X5. The importer reads thread objects with any keys: for a container
    whose metadata is the JSON text of an array of objects, whatever keys
    they hold, [Decode] returns the stitches and one thread per object, in
    order, each attribute being the value under its key or None when the
    key is missing. *)
Theorem Decode_foreign_objects stitches ds :
  forallb stitch_ok stitches = true ->
  Z.of_nat (length stitches) < 2 ^ 32 ->
  plain (JList (map JDict ds)) = true ->
  Z.of_nat (length (dumps (JList (map JDict ds)))) < 2 ^ 32 ->
  Decode (container_of stitches (JList (map JDict ds)))
  = Ok (stitches, map thread_of_dict ds).
Proof.
  intros Hs Hn Hp Hm. rewrite Decode_container_of by assumption.
  cbn [iter bind]. rewrite list_map_dicts_of. reflexivity.
Qed.

Lemma Decode_foreign_objects_witness :
  Decode (container_of example_stitches (JList (map JDict foreign_dicts)))
  = Ok (example_stitches,
        [ mkThread JNull JNull JNull JNull (JStr (lit "Acme")) JNull JNull;
          no_attributes ]).
Proof.
  apply (Decode_foreign_objects example_stitches foreign_dicts);
    vm_compute; reflexivity.
Defined.

(** ** What [Encode] wrote *)

(** Whenever [Encode] returns for threads with [plain] attributes, [Decode]
    gives back its arguments. *)
Lemma Decode_of_Encode st th b :
  forallb thread_plain th = true ->
  Encode st th = Ok b ->
  Decode b = Ok (st, th).
Proof.
  intros Hp He.
  pose proof (threads_json_plain th Hp) as Hplain.
  pose proof (dumps_ascii _ Hplain) as Hascii.
  fold (threads_json th) in Hascii.
  unfold Encode, ReadPy.main in He. cbn [stitches threadlist] in He.
  rewrite (utf8_encode_ascii _ Hascii), write_container_outcome in He.
  destruct (in_u32 (Z.of_nat (length st))) eqn:Hn; cbn [negb] in He;
    [|discriminate].
  destruct (forallb stitch_ok st) eqn:Hs; cbn [negb] in He; [|discriminate].
  destruct (in_u32 (Z.of_nat (length (map byte.of_Z (threads_json th)))))
    eqn:Hm; cbn [negb] in He; [|discriminate].
  injection He as <-. apply in_u32_true in Hn, Hm. rewrite length_map in Hm.
  pose proof (Decode_container_of st
                (JList (map (fun t => JDict (thread_to_dict t)) th))
                Hs (proj2 Hn) Hplain (proj2 Hm)) as Hd.
  cbn [iter bind] in Hd. rewrite list_map_threads in Hd. exact Hd.
Qed.

(** X6. [Encode] loses nothing: two patterns with [plain] thread attributes
    that [Encode] maps to the same bytes have the same stitches and the
    same threads. *)
Theorem Encode_injective stitches threads stitches' threads' b :
  forallb thread_plain threads = true ->
  forallb thread_plain threads' = true ->
  Encode stitches threads = Ok b ->
  Encode stitches' threads' = Ok b ->
  stitches = stitches' /\ threads = threads'.
Proof.
  intros Hp Hp' He He'.
  apply Decode_of_Encode in He; [|exact Hp].
  apply Decode_of_Encode in He'; [|exact Hp'].
  rewrite He in He'. injection He' as -> ->. split; reflexivity.
Qed.

Lemma Encode_injective_witness :
  Encode example_stitches example_threads = Ok example_container
  /\ example_stitches = example_stitches /\ example_threads = example_threads.
Proof.
  split; [vm_compute; reflexivity|].
  apply (Encode_injective example_stitches example_threads
           example_stitches example_threads example_container);
    vm_compute; reflexivity.
Defined.

(** ** The metadata bytes *)

Lemma dumps_ascii_float_free v :
  float_free v = true -> forallb is_ascii (dumps v) = true.
Proof.
  induction v as [| b | n | t | s | l IH | d IH] using json_ind'; intros Hp.
  - reflexivity.
  - destruct b; reflexivity.
  - apply int_repr_ascii.
  - discriminate Hp.
  - apply string_ascii.
  - change (dumps (JList l)) with ([91] ++ join (lit ", ") (map dumps l) ++ [93]).
    rewrite !forallb_app, join_forallb; [reflexivity..|].
    cbn [float_free] in Hp. rewrite forallb_forall in Hp.
    apply Forall_map, Forall_forall. intros x Hin.
    rewrite Forall_forall in IH. apply IH; [exact Hin | apply Hp, Hin].
  - change (dumps (JDict d)) with ([123] ++ join (lit ", ") (map item d) ++ [125]).
    rewrite !forallb_app, join_forallb; [reflexivity..|].
    cbn [float_free] in Hp. rewrite forallb_forall in Hp.
    apply Forall_map, Forall_forall. intros kv Hin.
    rewrite Forall_forall in IH.
    unfold item. rewrite !forallb_app, string_ascii, (IH kv Hin (Hp kv Hin)).
    reflexivity.
Qed.

Lemma threads_json_float_free threads :
  forallb thread_float_free threads = true ->
  float_free (JList (map (fun t => JDict (thread_to_dict t)) threads)) = true.
Proof.
  intros H. cbn [float_free]. rewrite forallb_forall in *.
  intros v Hin. apply in_map_iff in Hin as (t & <- & Hin).
  specialize (H t Hin). destruct t as [c d n e b h w].
  unfold thread_float_free, thread_values in H.
  cbn [forallb color description catalog_number details brand chart weight] in H.
  rewrite !andb_true_iff in H. destruct H as (Hc & Hd & Hn & He & Hb & Hh & Hw & _).
  cbn [float_free thread_to_dict forallb snd
       color description catalog_number details brand chart weight].
  rewrite Hc, Hd, Hn, He, Hb, Hh, Hw. reflexivity.
Qed.

(** X7. The metadata never breaks the exporter's encoding: for threads
    without a float among their attributes, whatever characters their
    strings hold (unpaired surrogates included), the JSON text is ASCII,
    [threads.encode("utf-8")] returns one byte per character, and so the
    size field is the number of characters of the text. *)
Theorem threads_bytes_ascii threads :
  forallb thread_float_free threads = true ->
  forallb is_ascii (threads_json threads) = true
  /\ Utf8.encode (threads_json threads) = Ok (map byte.of_Z (threads_json threads))
  /\ length (map byte.of_Z (threads_json threads)) = length (threads_json threads).
Proof.
  intros H.
  pose proof (dumps_ascii_float_free _ (threads_json_float_free threads H)) as Ha.
  fold (threads_json threads) in Ha.
  split; [exact Ha|]. split; [apply utf8_encode_ascii, Ha | apply length_map].
Qed.

Lemma threads_bytes_ascii_witness :
  forallb is_ascii (threads_json [unicode_thread]) = true
  /\ Utf8.encode (threads_json [unicode_thread])
     = Ok (map byte.of_Z (threads_json [unicode_thread]))
  /\ length (map byte.of_Z (threads_json [unicode_thread]))
     = length (threads_json [unicode_thread]).
Proof.
  apply (threads_bytes_ascii [unicode_thread]). vm_compute. reflexivity.
Defined.

(** ** Threads and thread objects *)

(** X8. The two thread conversions fit together: [dict_to_thread] undoes
    [thread_to_dict] on every thread, whatever its attributes hold, also
    through [list(map(...))]; and taking a dict through [dict_to_thread]
    and [thread_to_dict] gives the seven keys in order, unknown keys
    dropped and missing ones bound to None. *)
Theorem thread_dict_roundtrip threads d :
  list_map dict_to_thread (map (fun t => JDict (thread_to_dict t)) threads)
  = Ok threads
  /\ bind (dict_to_thread (JDict d)) (fun t => Ok (thread_to_dict t))
     = Ok (map (fun k => (k, dict_get k d)) thread_keys).
Proof.
  split; [|reflexivity].
  induction threads as [|t threads IH]; [reflexivity|].
  cbn [map list_map]. rewrite IH. destruct t. reflexivity.
Qed.

(** ** A size field larger than the metadata *)

Lemma read_frame_declared stitches tb m :
  forallb stitch_ok stitches = true ->
  Z.of_nat (length stitches) < 2 ^ 32 ->
  Z.of_nat (length tb) <= m < 2 ^ 32 ->
  read_frame (le32 (Z.of_nat (length stitches)) ++ flat_map row_bytes stitches
                ++ le32 m ++ tb)
  = (Ok (stitches, tb), []).
Proof.
  intros Hs Hn Hm. unfold read_frame.
  unfold iobind at 1, read at 1. change (Z.to_nat 4) with 4%nat.
  rewrite firstn_exact, skipn_exact by reflexivity.
  unfold iobind at 1, lift at 1.
  rewrite unpack_I_le32 by (apply in_u32_true; lia).
  unfold iobind at 1. rewrite Nat2Z.id, read_rows_written by exact Hs.
  unfold iobind at 1, read at 1. change (Z.to_nat 4) with 4%nat.
  rewrite firstn_exact, skipn_exact by reflexivity.
  unfold iobind at 1, lift at 1.
  rewrite unpack_I_le32 by (apply in_u32_true; lia).
  unfold iobind at 1, read at 1, ret.
  rewrite firstn_all2, skipn_all2 by lia. reflexivity.
Qed.

(** X9. A size field larger than the metadata present goes unnoticed: the
    importer reads what is there, so a file whose size field declares more
    bytes than follow it decodes exactly as the file with the true size
    does, with no truncation error. *)
Theorem Decode_size_overdeclared stitches tb m :
  forallb stitch_ok stitches = true ->
  Z.of_nat (length stitches) < 2 ^ 32 ->
  Z.of_nat (length tb) <= m < 2 ^ 32 ->
  Decode (le32 (Z.of_nat (length stitches)) ++ flat_map row_bytes stitches
            ++ le32 m ++ tb)
  = Decode (le32 (Z.of_nat (length stitches)) ++ flat_map row_bytes stitches
              ++ le32 (Z.of_nat (length tb)) ++ tb).
Proof.
  intros Hs Hn Hm.
  rewrite (Decode_frame _ stitches tb [])
    by (apply read_frame_declared; assumption).
  rewrite (Decode_frame _ stitches tb [])
    by (apply read_frame_declared; (assumption || lia)).
  reflexivity.
Qed.

Lemma Decode_size_overdeclared_witness :
  Decode overdeclared_example = Decode (le32 0 ++ le32 2 ++ map byte.of_Z (lit "[]")).
Proof.
  apply (Decode_size_overdeclared [] (map byte.of_Z (lit "[]")) 100);
    vm_compute; first [reflexivity | split; [discriminate | reflexivity]].
Defined.
